(** * minitorch scalars: forward functions, backward functions and
      derivative checking

    A shallow embedding of [minitorch/scalar.py].  Python floats are IEEE 754
    binary64 numbers, embedded as Rocq's primitive [float]; Python objects
    with identity (the tracked values) are split into an immutable record
    carrying a [unique_id] and a store holding the slots that are assigned
    after construction, keyed by that identity.  Exceptions are results of a
    small state-and-exception monad.

    [scalar.py] imports [FunctionBase], [Variable], [History] (module
    [autodiff]) and the numeric kernels (module [operators]).  These two
    modules are modelled from the written specification; every such
    definition says so in its documentation. *)

From Stdlib Require Import Floats ZArith.
From stdpp Require Import gmap strings list.

Set Warnings "-inexact-float,-register-all,-clear-no-such-hyp".

(** ** Numeric kernels: [operators] *)

Module operators.
Local Open Scope float_scope.

(** Modelled from the spec: [operators.mul] is not in the sources;
    §4.1 gives [mul(a,b) = a*b]. *)
Definition mul (a b : float) : float := a * b.

(** Modelled from the spec: [operators.mul_back], §4.1:
    [mul_back(a,b,d) = (b*d, a*d)]. *)
Definition mul_back (a b d : float) : float * float := (b * d, a * d).

(** Modelled from the spec: [operators.inv], §4.1: [inv(a) = 1/a]. *)
Definition inv (a : float) : float := 1 / a.

(** Modelled from the spec: [operators.inv_back], §4.1:
    [inv_back(a,d) = -d/a²]. *)
Definition inv_back (a d : float) : float := - d / (a * a).

(** Modelled from the spec: [operators.neg], the negation kernel of §1. *)
Definition neg (a : float) : float := - a.

(** Modelled from the spec: [operators.neg_back], the derivative of the
    negation times the incoming gradient (§4.1, backward contract). *)
Definition neg_back (d : float) : float := - d.

(** Modelled from the spec: [operators.lt]; the docstring of [LT] reads
    "1.0 if x is less than y else 0.0". *)
Definition lt (a b : float) : float := if a <? b then 1 else 0.

(** Modelled from the spec: [operators.eq]; the docstring of [EQ] reads
    "1.0 if x is equal to y else 0.0". *)
Definition eq (a b : float) : float := if a =? b then 1 else 0.

(** Modelled from the spec: [operators.relu], §4.1: [relu(a) = max(0,a)]. *)
Definition relu (a : float) : float := if 0 <? a then a else 0.

(** Modelled from the spec: [operators.relu_back], §4.1:
    [relu_back(a,d) = d if a>0 else 0]. *)
Definition relu_back (a d : float) : float := if 0 <? a then d else 0.

(** Modelled from the spec: [operators.log_back], §4.1:
    [log_back(a,d) = d/a]. *)
Definition log_back (a d : float) : float := d / a.

Section Transcendental.
(** The natural logarithm and the exponential of the platform's C library
    ([math.log], [math.exp]); binary64 has no closed form for them. *)
Variables math_log math_exp : float -> float.

(** Modelled from the spec: [operators.log], §4.1: [log(a) = ln(a)]. *)
Definition log (a : float) : float := math_log a.

(** Modelled from the spec: [operators.exp], the exponential kernel. *)
Definition exp (a : float) : float := math_exp a.

(** Modelled from the spec: [operators.exp_back], the derivative of the
    exponential times the incoming gradient. *)
Definition exp_back (a d : float) : float := d * math_exp a.

(** Modelled from the spec: [operators.sigmoid], §4.1:
    [sigmoid(a) = 1/(1+e^-a)]. *)
Definition sigmoid (a : float) : float := 1 / (1 + math_exp (- a)).

(** Modelled from the spec: [operators.sigmoid_back], §4.1:
    [sigmoid_back(a,d) = d * s*(1-s)] where [s = sigmoid(a)]. *)
Definition sigmoid_back (a d : float) : float :=
  let s := sigmoid a in d * (s * (1 - s)).
End Transcendental.

End operators.

(** ** Exceptions and results *)

Inductive exception : Set :=
  | TypeError | ValueError | KeyError | AttributeError | AssertionError
  | ZeroDivisionError.

Inductive result (A : Type) : Type :=
  | Ok (a : A)
  | Raise (e : exception).
Arguments Ok {A} a.
Arguments Raise {A} e.

(** ** [autodiff]: contexts, functions, histories and variables *)

(** Modelled from the spec: [Context] (§3): the [no_grad] flag and the
    tuple of saved values, unset until the forward call saves. *)
Record Context : Type := mkContext {
  no_grad : bool;
  saved_values : option (list float)
}.

(** Modelled from the spec: [Context.save_for_backward], the save operation
    of §3; it stores the tuple of values for the backward call.  The flag
    [no_grad] lets an operation skip the call; the call itself stores. *)
Definition save_for_backward (ctx : Context) (values : list float) : Context :=
  {| no_grad := no_grad ctx; saved_values := Some values |}.

(** A forward call that saves nothing leaves the context as it was. *)
Definition keep_context (ctx : Context) (_ : list float) : Context := ctx.

(** The interface of [ScalarFunction]: a static [forward] and a static
    [backward].  [forward] receives the context and the raw inputs and
    returns the value together with the context as it left it; calling it
    with the wrong number of inputs is a [TypeError].  [backward] returns
    one gradient per input (a single float is a one-element list). *)
Record ScalarFunction : Type := mkScalarFunction {
  forward : Context -> list float -> result (float * Context);
  backward : Context -> float -> result (list float)
}.

(** [ScalarFunction.data_type = float]: conversion of a float to float. *)
Definition data_type (x : float) : float := x.

(** [ScalarFunction.data(a)] returns [a]. *)
Definition ScalarFunction_data (a : float) : float := a.

(** An operand of a function application: a tracked value or a raw number. *)
Inductive Arg (V : Type) : Type :=
  | AVar (v : V)
  | ARaw (x : float).
Arguments AVar {V} v.
Arguments ARaw {V} x.

(** Modelled from the spec: [History] (§3): the operation, the context of
    its forward call and the inputs as they were passed.  [History()] with
    no argument, the default of [Scalar.__init__], has none of them. *)
Record History (V : Type) : Type := mkHistory {
  last_fn : option ScalarFunction;
  ctx : option Context;
  inputs : list (Arg V)
}.
Arguments mkHistory {V} last_fn ctx inputs.
Arguments last_fn {V} h.
Arguments ctx {V} h.
Arguments inputs {V} h.

(** Modelled from the spec: the attributes of [Variable] (§3), together
    with the [data] that [Scalar] adds.  The fields below are fixed at
    construction; [derivative] and [requires_grad] are assigned later and
    live in the [Store]. *)
Inductive Scalar : Type := mkScalar {
  unique_id : nat;
  data : float;
  history : option (History Scalar);
  name : option string
}.

(** Modelled from the spec: [History()], the history with no operation,
    no context and no inputs. *)
Definition History_empty : History Scalar := mkHistory None None [].

(** Modelled from the spec: "no history" (§3, §9): the absence of a
    history object, or the empty [History()], which records no operation,
    no context and no inputs. *)
Definition history_is_none (v : Scalar) : bool :=
  match history v with
  | None => true
  | Some h =>
      match last_fn h, ctx h, inputs h with
      | None, None, [] => true
      | _, _, _ => false
      end
  end.

(** The scalar [v] with the absence of a history in place of the history
    it carries. *)
Definition without_history (v : Scalar) : Scalar :=
  mkScalar (unique_id v) (data v) None (name v).

(** One line written by [print] in [derivative_check]. *)
Record PrintLine : Type := mkPrintLine {
  pl_data : list float;
  pl_derivative : option float;
  pl_arg : nat;
  pl_check : float
}.

(** The mutable world: the global counter behind [unique_id], the
    [requires_grad] flag and the [derivative] slot of every variable, and
    what was printed. *)
Record Store : Type := mkStore {
  variable_count : nat;
  requires_grad_flags : gset nat;
  derivatives : gmap nat float;
  stdout : list PrintLine
}.

Definition Store_init : Store := mkStore 0 ∅ ∅ [].

(** ** The monad of stateful computations that may raise *)

Definition M (A : Type) : Type := Store -> result A * Store.

Definition ret {A} (a : A) : M A := fun st => (Ok a, st).

Definition bind {A B} (m : M A) (k : A -> M B) : M B :=
  fun st => match m st with
            | (Ok a, st') => k a st'
            | (Raise e, st') => (Raise e, st')
            end.

Definition raise {A} (e : exception) : M A := fun st => (Raise e, st).

Definition gets {A} (f : Store -> A) : M A := fun st => (Ok (f st), st).

Definition modify (f : Store -> Store) : M unit := fun st => (Ok tt, f st).

Definition lift {A} (r : result A) : M A := fun st => (r, st).

#[global] Instance M_ret : MRet M := @ret.
#[global] Instance M_bind : MBind M := fun A B k m => bind m k.

(** [for x in l: body x]. *)
Fixpoint for_each {A} (body : A -> M unit) (l : list A) : M unit :=
  match l with
  | [] => ret tt
  | x :: l' => body x ;; for_each body l'
  end.

(** *** Attributes kept in the store *)

(** Modelled from the spec: the attribute [x.requires_grad] (§3). *)
Definition requires_grad (st : Store) (x : Scalar) : bool :=
  bool_decide (unique_id x ∈ requires_grad_flags st).

(** Modelled from the spec: the attribute [x.derivative] (§3); [None]
    while unset. *)
Definition derivative (st : Store) (x : Scalar) : option float :=
  derivatives st !! unique_id x.

Definition set_requires_grad (uid : nat) (val : bool) (st : Store) : Store :=
  mkStore (variable_count st)
          (if val then {[uid]} ∪ requires_grad_flags st
           else requires_grad_flags st ∖ {[uid]})
          (derivatives st) (stdout st).

Definition set_derivative (uid : nat) (d : option float) (st : Store) : Store :=
  mkStore (variable_count st) (requires_grad_flags st)
          (match d with
           | Some g => <[uid := g]> (derivatives st)
           | None => delete uid (derivatives st)
           end)
          (stdout st).

Definition write_stdout (line : PrintLine) (st : Store) : Store :=
  mkStore (variable_count st) (requires_grad_flags st) (derivatives st)
          (stdout st ++ [line]).

(** Modelled from the spec: the store after a variable was created: the
    global counter of §9 is advanced, and the slots of the new identity are
    cleared. *)
Definition allocate (st : Store) : Store :=
  let uid := S (variable_count st) in
  mkStore uid (requires_grad_flags st ∖ {[uid]})
          (delete uid (derivatives st)) (stdout st).

(** Modelled from the spec: [Variable.__init__] (§3, §9): the global
    counter is advanced and gives the new value its [unique_id]; the new
    value has no derivative and does not request gradients.  The record
    itself is built by [Scalar__init__], which knows the data. *)
Definition Variable__init__ : M nat :=
  fun st => (Ok (S (variable_count st)), allocate st).

(** Modelled from the spec: [Variable.requires_grad_] (§6). *)
Definition requires_grad_ (x : Scalar) (val : bool) : M unit :=
  modify (set_requires_grad (unique_id x) val).

(** [Scalar.__init__(self, v, back, name)]:
    [super().__init__(back, name=name); self.data = float(v)]. *)
Definition Scalar__init__ (v : float) (back : option (History Scalar))
    (name : option string) : M Scalar :=
  uid ← Variable__init__; mret (mkScalar uid (data_type v) back name).

(** The default of the parameter [back] of [Scalar.__init__]: the object
    [History()] built when the class is defined. *)
Definition Scalar_default_back : option (History Scalar) := Some History_empty.

(** [Scalar(v)]: the constructor called with a number only. *)
Definition Scalar_new (v : float) : M Scalar :=
  Scalar__init__ v Scalar_default_back None.

(** [Scalar.get_data]. *)
Definition get_data (self : Scalar) : float := data self.

(** *** Function application *)

(** Modelled from the spec: the raw value of an operand, [data] of a
    variable and the number itself otherwise (§4.2, step 2). *)
Definition raw_value (a : Arg Scalar) : float :=
  match a with
  | AVar v => get_data v
  | ARaw x => x
  end.

(** Modelled from the spec: §4.2, step 1: does some tracked operand
    request gradients? *)
Definition needs_grad (st : Store) (vals : list (Arg Scalar)) : bool :=
  existsb (fun a => match a with
                    | AVar v => requires_grad st v
                    | ARaw _ => false
                    end) vals.

(** Modelled from the spec: [FunctionBase.apply] (§4.2).  A fresh context
    is made with [no_grad = not needs_grad]; [forward] runs on the raw
    values; the result is wrapped by the class's [variable] (here [Scalar])
    with a history of the operation, the context and the original operands
    when gradients are needed, and with no history otherwise.  A result
    that carries a history requests gradients in its turn, so that a later
    application to it is tracked too. *)
Definition apply (cls : ScalarFunction) (vals : list (Arg Scalar)) : M Scalar :=
  need_grad ← gets (fun st => needs_grad st vals);
  let raw_vals := map raw_value vals in
  let ctx0 := mkContext (negb need_grad) None in
  '(c, ctx1) ← lift (forward cls ctx0 raw_vals);
  if (need_grad : bool) then
    out ← Scalar__init__ (ScalarFunction_data c)
            (Some (mkHistory (Some cls) (Some ctx1) vals)) None;
    requires_grad_ out true;;
    mret out
  else
    Scalar__init__ (ScalarFunction_data c) None None.

(** *** Backward propagation *)

(** Modelled from the spec: the visiting order of §4.3, step 1: a
    depth-first traversal from the root along the inputs of the histories,
    each variable (by [unique_id]) entered once and recorded when its
    inputs are done.  The list built has the root first and every variable
    before the variables it was computed from. *)
Fixpoint visit (v : Scalar) (acc : gset nat * list Scalar) {struct v}
    : gset nat * list Scalar :=
  match v with
  | mkScalar uid _ h _ =>
      if decide (uid ∈ acc.1) then acc
      else
        let acc1 :=
          match h with
          | Some hh =>
              (fix visit_inputs (l : list (Arg Scalar))
                   (acc : gset nat * list Scalar) :=
                 match l with
                 | [] => acc
                 | AVar s :: l' => visit_inputs l' (visit s acc)
                 | ARaw _ :: l' => visit_inputs l' acc
                 end) (inputs hh) acc
          | None => acc
          end in
        ({[uid]} ∪ acc1.1, v :: acc1.2)
  end.

(** Modelled from the spec: the order of §4.3, step 1, from the root. *)
Definition topological_order (root : Scalar) : list Scalar :=
  (visit root (∅, [])).2.

(** Modelled from the spec: §4.3, step 3: add a gradient to the running
    total of a variable, creating the entry if it is absent. *)
Definition add_grad (grads : gmap nat float) (uid : nat) (g : float)
    : gmap nat float :=
  <[uid := match grads !! uid with
           | Some total => (total + g)%float
           | None => g
           end]> grads.

(** Modelled from the spec: §4.3, step 3: route the gradients returned by
    a backward call to the input slots; slots holding raw numbers are
    discarded. *)
Fixpoint route (ins : list (Arg Scalar)) (gs : list float)
    (grads : gmap nat float) : gmap nat float :=
  match ins, gs with
  | AVar v :: ins', g :: gs' => route ins' gs' (add_grad grads (unique_id v) g)
  | ARaw _ :: ins', _ :: gs' => route ins' gs' grads
  | _, _ => grads
  end.

(** Modelled from the spec: a leaf is a variable without an operation that
    produced it (§3, glossary): no history, or the empty [History()]. *)
Definition is_leaf (v : Scalar) : bool :=
  match history v with
  | Some h => match last_fn h with Some _ => false | None => true end
  | None => true
  end.

(** Modelled from the spec: one visit of §4.3, step 3.  A leaf that
    requests gradients receives the gradient mapped to it as its
    derivative (each pass starts fresh); a variable with a history has its
    operation's backward called on the saved context and the result routed
    to its inputs. *)
Definition visit_variable (v : Scalar) (grads : gmap nat float)
    : M (gmap nat float) :=
  match grads !! unique_id v with
  | None => raise KeyError
  | Some d =>
      match history v with
      | Some (mkHistory (Some fn) c ins) =>
          match c with
          | None => raise AttributeError
          | Some c =>
              gs ← lift (backward fn c d);
              mret (route ins gs grads)
          end
      | _ =>
          rg ← gets (fun st => requires_grad st v);
          (if (rg : bool)
           then modify (set_derivative (unique_id v) (Some d))
           else mret tt);;
          mret grads
      end
  end.

(** Modelled from the spec: §4.3, step 3: the visits in order, the
    running totals handed from one to the next. *)
Fixpoint visit_all (order : list Scalar) (grads : gmap nat float) : M unit :=
  match order with
  | [] => mret tt
  | v :: order' => grads' ← visit_variable v grads; visit_all order' grads'
  end.

(** Modelled from the spec: [backward(root, seed = 1.0)] (§4.3). *)
Definition Variable_backward (root : Scalar) (d_output : option float) : M unit :=
  let seed := default 1%float d_output in
  visit_all (topological_order root) {[unique_id root := seed]}.

(** ** [scalar.py]: the scalar functions *)

(** Modelled from the spec: the property [Context.saved_values] read as
    [a = ctx.saved_values], after one value was saved. *)
Definition saved_value (ctx : Context) : result float :=
  match saved_values ctx with
  | Some [a] => Ok a
  | Some _ => Raise TypeError
  | None => Raise AttributeError
  end.

(** Modelled from the spec: the property [Context.saved_values] read as
    [a, b = ctx.saved_values], after two values were saved. *)
Definition saved_pair (ctx : Context) : result (float * float) :=
  match saved_values ctx with
  | Some [a; b] => Ok (a, b)
  | Some [_] => Raise TypeError
  | Some _ => Raise ValueError
  | None => Raise AttributeError
  end.

Module Add.
Definition forward (ctx : Context) (inputs : list float)
    : result (float * Context) :=
  match inputs with
  | [a; b] => Ok ((a + b)%float, ctx)
  | _ => Raise TypeError
  end.

Definition backward (ctx : Context) (d_output : float) : result (list float) :=
  Ok [d_output; d_output].

Definition cls : ScalarFunction := mkScalarFunction forward backward.
Definition apply : list (Arg Scalar) -> M Scalar := apply cls.
End Add.

Module Log.
Section WithMath.
Variable math_log : float -> float.

Definition forward (ctx : Context) (inputs : list float)
    : result (float * Context) :=
  match inputs with
  | [a] => Ok (operators.log math_log a, save_for_backward ctx [a])
  | _ => Raise TypeError
  end.

Definition backward (ctx : Context) (d_output : float) : result (list float) :=
  match saved_value ctx with
  | Ok a => Ok [operators.log_back a d_output]
  | Raise e => Raise e
  end.

Definition cls : ScalarFunction := mkScalarFunction forward backward.
Definition apply : list (Arg Scalar) -> M Scalar := apply cls.
End WithMath.
End Log.

Module Mul.
Definition forward (ctx : Context) (inputs : list float)
    : result (float * Context) :=
  match inputs with
  | [a; b] => Ok (data_type (operators.mul a b), save_for_backward ctx [a; b])
  | _ => Raise TypeError
  end.

Definition backward (ctx : Context) (d_output : float) : result (list float) :=
  match saved_pair ctx with
  | Ok (a, b) =>
      let '(da, db) := operators.mul_back a b d_output in Ok [da; db]
  | Raise e => Raise e
  end.

Definition cls : ScalarFunction := mkScalarFunction forward backward.
Definition apply : list (Arg Scalar) -> M Scalar := apply cls.
End Mul.

Module Inv.
Definition forward (ctx : Context) (inputs : list float)
    : result (float * Context) :=
  match inputs with
  | [a] => Ok (data_type (operators.inv a), save_for_backward ctx [a])
  | _ => Raise TypeError
  end.

Definition backward (ctx : Context) (d_output : float) : result (list float) :=
  match saved_value ctx with
  | Ok a => Ok [operators.inv_back a d_output]
  | Raise e => Raise e
  end.

Definition cls : ScalarFunction := mkScalarFunction forward backward.
Definition apply : list (Arg Scalar) -> M Scalar := apply cls.
End Inv.

Module Neg.
Definition forward (ctx : Context) (inputs : list float)
    : result (float * Context) :=
  match inputs with
  | [a] => Ok (data_type (operators.neg a), ctx)
  | _ => Raise TypeError
  end.

Definition backward (ctx : Context) (d_output : float) : result (list float) :=
  Ok [operators.neg_back d_output].

Definition cls : ScalarFunction := mkScalarFunction forward backward.
Definition apply : list (Arg Scalar) -> M Scalar := apply cls.
End Neg.

Module Sigmoid.
Section WithMath.
Variable math_exp : float -> float.

Definition forward (ctx : Context) (inputs : list float)
    : result (float * Context) :=
  match inputs with
  | [a] => Ok (data_type (operators.sigmoid math_exp a),
               save_for_backward ctx [a])
  | _ => Raise TypeError
  end.

Definition backward (ctx : Context) (d_output : float) : result (list float) :=
  match saved_value ctx with
  | Ok a => Ok [operators.sigmoid_back math_exp a d_output]
  | Raise e => Raise e
  end.

Definition cls : ScalarFunction := mkScalarFunction forward backward.
Definition apply : list (Arg Scalar) -> M Scalar := apply cls.
End WithMath.
End Sigmoid.

Module ReLU.
Definition forward (ctx : Context) (inputs : list float)
    : result (float * Context) :=
  match inputs with
  | [a] => Ok (data_type (operators.relu a), save_for_backward ctx [a])
  | _ => Raise TypeError
  end.

Definition backward (ctx : Context) (d_output : float) : result (list float) :=
  match saved_value ctx with
  | Ok a => Ok [operators.relu_back a d_output]
  | Raise e => Raise e
  end.

Definition cls : ScalarFunction := mkScalarFunction forward backward.
Definition apply : list (Arg Scalar) -> M Scalar := apply cls.
End ReLU.

Module Exp.
Section WithMath.
Variable math_exp : float -> float.

Definition forward (ctx : Context) (inputs : list float)
    : result (float * Context) :=
  match inputs with
  | [a] => Ok (data_type (operators.exp math_exp a), save_for_backward ctx [a])
  | _ => Raise TypeError
  end.

Definition backward (ctx : Context) (d_output : float) : result (list float) :=
  match saved_value ctx with
  | Ok a => Ok [operators.exp_back math_exp a d_output]
  | Raise e => Raise e
  end.

Definition cls : ScalarFunction := mkScalarFunction forward backward.
Definition apply : list (Arg Scalar) -> M Scalar := apply cls.
End WithMath.
End Exp.

Module LT.
Definition forward (ctx : Context) (inputs : list float)
    : result (float * Context) :=
  match inputs with
  | [a; b] => Ok (data_type (operators.lt a b), ctx)
  | _ => Raise TypeError
  end.

Definition backward (ctx : Context) (d_output : float) : result (list float) :=
  Ok [0%float; 0%float].

Definition cls : ScalarFunction := mkScalarFunction forward backward.
Definition apply : list (Arg Scalar) -> M Scalar := apply cls.
End LT.

Module EQ.
Definition forward (ctx : Context) (inputs : list float)
    : result (float * Context) :=
  match inputs with
  | [a; b] => Ok (data_type (operators.eq a b), ctx)
  | _ => Raise TypeError
  end.

Definition backward (ctx : Context) (d_output : float) : result (list float) :=
  Ok [0%float; 0%float].

Definition cls : ScalarFunction := mkScalarFunction forward backward.
Definition apply : list (Arg Scalar) -> M Scalar := apply cls.
End EQ.

(** ** [scalar.py]: the methods of [Scalar] *)

Definition Scalar__mul__ (self : Scalar) (b : Arg Scalar) : M Scalar :=
  Mul.apply [AVar self; b].

Definition Scalar__truediv__ (self : Scalar) (b : Arg Scalar) : M Scalar :=
  i ← Inv.apply [b]; Mul.apply [AVar self; AVar i].

Definition Scalar__rtruediv__ (self : Scalar) (b : Arg Scalar) : M Scalar :=
  i ← Inv.apply [AVar self]; Mul.apply [b; AVar i].

Definition Scalar__add__ (self : Scalar) (b : Arg Scalar) : M Scalar :=
  Add.apply [AVar self; b].

(** [bool(x)] of a float: [x != 0.0]. *)
Definition float_bool (x : float) : bool := negb (x =? 0)%float.

Definition Scalar__bool__ (self : Scalar) : bool := float_bool (data self).

Definition Scalar__lt__ (self : Scalar) (b : Arg Scalar) : M Scalar :=
  LT.apply [AVar self; b].

Definition Scalar__gt__ (self : Scalar) (b : Arg Scalar) : M Scalar :=
  LT.apply [b; AVar self].

Definition Scalar__eq__ (self : Scalar) (b : Arg Scalar) : M Scalar :=
  EQ.apply [AVar self; b].

Definition Scalar__sub__ (self : Scalar) (b : Arg Scalar) : M Scalar :=
  n ← Neg.apply [b]; Add.apply [AVar self; AVar n].

Definition Scalar__neg__ (self : Scalar) : M Scalar :=
  Neg.apply [AVar self].

Definition Scalar_log (math_log : float -> float) (self : Scalar) : M Scalar :=
  Log.apply math_log [AVar self].

Definition Scalar_exp (math_exp : float -> float) (self : Scalar) : M Scalar :=
  Exp.apply math_exp [AVar self].

Definition Scalar_sigmoid (math_exp : float -> float) (self : Scalar) : M Scalar :=
  Sigmoid.apply math_exp [AVar self].

Definition Scalar_relu (self : Scalar) : M Scalar :=
  ReLU.apply [AVar self].

(** ** [scalar.py]: central difference *)

(** [central_difference] is written once and called on floats and on
    scalars alike; what it needs of its values is [val + epsilon],
    [val - epsilon], [x - y] and [x / c]. *)
Class Number (V : Type) : Type := {
  add_float : V -> float -> M V;
  sub_float : V -> float -> M V;
  sub : V -> V -> M V;
  truediv_float : V -> float -> M V
}.

(** [x / y] on two Python floats: a zero divisor, of either sign, is a
    [ZeroDivisionError]; otherwise the quotient of binary64. *)
Definition float_truediv (x y : float) : result float :=
  if (y =? 0)%float then Raise ZeroDivisionError else Ok (x / y)%float.

#[global] Instance float_Number : Number float := {|
  add_float := fun x e => mret (x + e)%float;
  sub_float := fun x e => mret (x - e)%float;
  sub := fun x y => mret (x - y)%float;
  truediv_float := fun x c => lift (float_truediv x c)
|}.

#[global] Instance Scalar_Number : Number Scalar := {|
  add_float := fun x e => Scalar__add__ x (ARaw e);
  sub_float := fun x e => Scalar__sub__ x (ARaw e);
  sub := fun x y => Scalar__sub__ x (AVar y);
  truediv_float := fun x c => Scalar__truediv__ x (ARaw c)
|}.

(** [[op(val, epsilon) if i == arg else val for (i, val) in enumerate(vals)]],
    with the enumeration starting at [i]. *)
Fixpoint shifted_vals {V} (op : V -> float -> M V) (arg : Z) (epsilon : float)
    (i : nat) (vals : list V) : M (list V) :=
  match vals with
  | [] => mret []
  | val :: rest =>
      x ← (if (Z.of_nat i =? arg)%Z then op val epsilon else mret val);
      xs ← shifted_vals op arg epsilon (S i) rest;
      mret (x :: xs)
  end.

Definition default_arg : Z := 0.
Definition default_epsilon : float := 1e-6.

(** [central_difference(f, *vals, arg=0, epsilon=1e-6)]. *)
Definition central_difference {V} `{Number V} (f : list V -> M V)
    (vals : list V) (arg : option Z) (epsilon : option float) : M V :=
  let arg := default default_arg arg in
  let epsilon := default default_epsilon epsilon in
  minus_epsilon_vals ← shifted_vals sub_float arg epsilon 0 vals;
  plus_epsilon_vals ← shifted_vals add_float arg epsilon 0 vals;
  fp ← f plus_epsilon_vals;
  fm ← f minus_epsilon_vals;
  diff ← sub fp fm;
  truediv_float diff (2 * epsilon)%float.

(** The values of the claim about [central_difference], after its words:
    [vals] with the [arg]-th value replaced by [g] of it (nothing is
    replaced when [arg] is no position of [vals]). *)
Definition perturb (g : float -> float) (arg : Z) (vals : list float)
    : list float :=
  if (0 <=? arg)%Z then alter g (Z.to_nat arg) vals else vals.

(** ** [scalar.py]: derivative check *)

(** [enumerate(l)], starting at [i]. *)
Fixpoint enumerate_from {A} (i : nat) (l : list A) : list (nat * A) :=
  match l with
  | [] => []
  | x :: l' => (i, x) :: enumerate_from (S i) l'
  end.

Definition enumerate {A} (l : list A) : list (nat * A) := enumerate_from 0 l.

(** The message of the check.  Only what can go wrong is kept of
    [err_msg % (str(...), x.derivative, i, check.data)]: formatting with
    [%f] a derivative that is [None] is a [TypeError]. *)
Definition format_err_msg (derivative : option float) : result unit :=
  match derivative with
  | Some _ => Ok tt
  | None => Raise TypeError
  end.

Section DerivativeCheck.
(** [numpy.testing.assert_allclose(actual, desired, rtol, atol)] on two
    floats: does the comparison pass?  The function belongs to numpy, not
    to minitorch, and is left open. *)
Variable allclose : float -> float -> float -> float -> bool.

(** [np.testing.assert_allclose(actual, desired, rtol, atol, err_msg=...)];
    the message is evaluated before the call. *)
Definition assert_allclose (actual : option float) (desired rtol atol : float)
    : M unit :=
  lift (format_err_msg actual);;
  match actual with
  | Some a =>
      if allclose a desired rtol atol then mret tt else raise AssertionError
  | None => raise TypeError
  end.

(** The body of the loop of [derivative_check] for the pair [(i, x)]. *)
Definition check_argument (f : list Scalar -> M Scalar)
    (scalars vals : list Scalar) (ix : nat * Scalar) : M unit :=
  let '(i, x) := ix in
  check ← central_difference f vals (Some (Z.of_nat i)) None;
  d ← gets (fun st => derivative st x);
  modify (write_stdout (mkPrintLine (map data scalars) d i (data check)));;
  assert_allclose d (data check) 1e-2 1e-2.

(** [derivative_check(f, *scalars)]. *)
Definition derivative_check (f : list Scalar -> M Scalar)
    (scalars : list Scalar) : M unit :=
  for_each (fun x => requires_grad_ x true) scalars;;
  out ← f scalars;
  Variable_backward out None;;
  let vals := scalars in
  for_each (check_argument f scalars vals) (enumerate scalars).

End DerivativeCheck.

(** The comparison of [numpy.testing.assert_allclose] on two floats, after
    numpy's documentation, for tolerances that are finite and not negative
    (as the two of [derivative_check] are): NaNs pass against NaNs only
    ([equal_nan=True]), an infinity passes against the same infinity only,
    and finite numbers pass when
    [|actual - desired| <= atol + rtol * |desired|]. *)
Definition tolerance_test (actual desired rtol atol : float) : bool :=
  if is_nan actual || is_nan desired then is_nan actual && is_nan desired
  else if is_infinity actual || is_infinity desired
  then (actual =? desired)%float
  else (abs (actual - desired) <=? atol + rtol * abs desired)%float.

(** ** Programs of the claims *)

(** [a = Scalar(2.0); b = Scalar(3.0)], both requesting gradients;
    [c = a * b + a]; [c.backward()]. *)
Definition end_to_end_example : M (Scalar * Scalar * Scalar) :=
  a ← Scalar_new 2;
  b ← Scalar_new 3;
  requires_grad_ a true;;
  requires_grad_ b true;;
  t ← Scalar__mul__ a (AVar b);
  c ← Scalar__add__ t (AVar a);
  Variable_backward c None;;
  mret (a, b, c).

(** [x = Scalar(v); x.requires_grad_(True); x.backward(seed)]. *)
Definition leaf_backward (v : float) (d_output : option float) : M Scalar :=
  x ← Scalar_new v;
  requires_grad_ x true;;
  Variable_backward x d_output;;
  mret x.

(** *** Functions and inputs of the examples of [derivative_check] *)

(** [lambda x: x * x]. *)
Definition square (l : list Scalar) : M Scalar :=
  match l with
  | [x] => Scalar__mul__ x (AVar x)
  | _ => raise TypeError
  end.

(** [lambda x, y: y * y], which does not use its first argument. *)
Definition square_of_second (l : list Scalar) : M Scalar :=
  match l with
  | [x; y] => Scalar__mul__ y (AVar y)
  | _ => raise TypeError
  end.

(** [lambda x: x < 2.0], a step at 2.0. *)
Definition below_two (l : list Scalar) : M Scalar :=
  match l with
  | [x] => Scalar__lt__ x (ARaw 2)
  | _ => raise TypeError
  end.

(** [x = Scalar(v); derivative_check(f, x)]. *)
Definition check_at (f : list Scalar -> M Scalar) (v : float) : M unit :=
  x ← Scalar_new v; derivative_check tolerance_test f [x].

(** [x = Scalar(v); y = Scalar(w); derivative_check(f, x, y)], whatever
    the comparison of numpy answers. *)
Definition check_at2 (allclose : float -> float -> float -> float -> bool)
    (f : list Scalar -> M Scalar) (v w : float) : M unit :=
  x ← Scalar_new v; y ← Scalar_new w; derivative_check allclose f [x; y].

(** [x = Scalar(v); y = Scalar(w); x.requires_grad_(True); x.backward();
    derivative_check(f, x, y)]: the check of inputs of which the first
    took a derivative from an earlier backward pass. *)
Definition check_after_backward
    (allclose : float -> float -> float -> float -> bool)
    (f : list Scalar -> M Scalar) (v w : float) : M unit :=
  x ← Scalar_new v;
  y ← Scalar_new w;
  requires_grad_ x true;;
  Variable_backward x None;;
  derivative_check allclose f [x; y].

(** The scalar [Scalar(2.0)] built first in the initial store, and the
    store after it was built. *)
Definition x_two : Scalar := mkScalar 1 2 (Some History_empty) None.
Definition st_one : Store := allocate Store_init.

(** *** Programs of the further properties *)

(** The classes of scalar functions that [scalar.py] defines, in the order
    of the file. *)
Definition scalar_functions (math_log math_exp : float -> float)
    : list ScalarFunction :=
  [Add.cls; Log.cls math_log; Mul.cls; Inv.cls; Neg.cls;
   Sigmoid.cls math_exp; ReLU.cls; Exp.cls math_exp; LT.cls; EQ.cls].

(** [x = Scalar(v); y = Scalar(w)], both made to request gradients. *)
Definition two_leaves (v w : float) : M (Scalar * Scalar) :=
  x ← Scalar_new v;
  y ← Scalar_new w;
  requires_grad_ x true;;
  requires_grad_ y true;;
  mret (x, y).

(** Two such leaves, then [c = op(x, y); c.backward(d_output)] for one of
    the binary operators of [Scalar]. *)
Definition binary_backward (op : Scalar -> Arg Scalar -> M Scalar)
    (v w : float) (d_output : option float) : M (Scalar * Scalar * Scalar) :=
  '(x, y) ← two_leaves v w;
  c ← op x (AVar y);
  Variable_backward c d_output;;
  mret (x, y, c).

(** [x = Scalar(v)], made to request gradients, then
    [c = op(x, x); c.backward(d_output)]. *)
Definition self_backward (op : Scalar -> Arg Scalar -> M Scalar)
    (v : float) (d_output : option float) : M (Scalar * Scalar) :=
  x ← Scalar_new v;
  requires_grad_ x true;;
  c ← op x (AVar x);
  Variable_backward c d_output;;
  mret (x, c).

(** [x = Scalar(v)], made to request gradients, then
    [c = op(x); c.backward(d_output)] for one of the unary operators of
    [Scalar]. *)
Definition unary_backward (op : Scalar -> M Scalar)
    (v : float) (d_output : option float) : M (Scalar * Scalar) :=
  x ← Scalar_new v;
  requires_grad_ x true;;
  c ← op x;
  Variable_backward c d_output;;
  mret (x, c).

(** The binary operators of [Scalar], in the order of the file. *)
Definition binary_operators : list (Scalar -> Arg Scalar -> M Scalar) :=
  [Scalar__mul__; Scalar__truediv__; Scalar__rtruediv__; Scalar__add__;
   Scalar__lt__; Scalar__gt__; Scalar__eq__; Scalar__sub__].

(** The scalars [Scalar(2.0)] and [Scalar(3.0)] built first in the initial
    store, and the store after they were built. *)
Definition y_three : Scalar := mkScalar 2 3 (Some History_empty) None.
Definition st_two : Store := allocate (allocate Store_init).

(** [-(-x)]. *)
Definition double_neg (x : Scalar) : M Scalar :=
  n ← Scalar__neg__ x; Scalar__neg__ n.

(** A function of floats, and one of scalars, that raise [ValueError]. *)
Definition failing_float (l : list float) : M float := raise ValueError.
Definition failing (l : list Scalar) : M Scalar := raise ValueError.

(** * Properties *)

(** ** Running the monad *)

Lemma bind_ok {A B} (m : M A) (k : A -> M B) (st st' : Store) (a : A) :
  m st = (Ok a, st') → (m ≫= k) st = k a st'.
Proof. intros H. unfold mbind, M_bind, bind. by rewrite H. Qed.

Lemma bind_raise {A B} (m : M A) (k : A -> M B) (st st' : Store) (e : exception) :
  m st = (Raise e, st') → (m ≫= k) st = (Raise e, st').
Proof. intros H. unfold mbind, M_bind, bind. by rewrite H. Qed.

(** ** Floats *)

(** The floats that compare equal to zero are the two zeros. *)
Lemma float_eqb_zero (x : float) :
  (x =? 0)%float = true ↔ x = 0%float ∨ x = (-0)%float.
Proof.
  split.
  - rewrite FloatAxioms.eqb_spec. intros H.
    destruct (Prim2SF x) as [s | s | | s m e] eqn:E;
      try (destruct s; discriminate H).
    + destruct s; [right | left]; apply Prim2SF_inj; rewrite E; reflexivity.
    + discriminate H.
  - intros [-> | ->]; reflexivity.
Qed.

(** ** Function application *)

(** An application whose forward call returns builds one new scalar: the
    next [unique_id], the value of the forward call, and a history exactly
    when some operand requests gradients. *)
Lemma apply_ok (cls : ScalarFunction) (vals : list (Arg Scalar)) (st : Store)
    (c : float) (ctx1 : Context) :
  forward cls (mkContext (negb (needs_grad st vals)) None) (map raw_value vals)
    = Ok (c, ctx1) →
  apply cls vals st =
    (Ok (mkScalar (S (variable_count st)) c
           (if needs_grad st vals
            then Some (mkHistory (Some cls) (Some ctx1) vals) else None)
           None),
     if needs_grad st vals
     then set_requires_grad (S (variable_count st)) true (allocate st)
     else allocate st).
Proof.
  intros Hfw. unfold apply, mbind, M_bind, bind, gets, lift. rewrite Hfw.
  by destruct (needs_grad st vals).
Qed.

(** ** The scalar functions *)

(** C3: for every context and incoming gradient, [LT.backward] and
    [EQ.backward] return the pair (0.0, 0.0); this holds in particular for
    the context left by the forward call, whatever the operands were. *)
Theorem comparison_backward_is_zero (ctx0 : Context) (a b d_output : float) :
  LT.backward ctx0 d_output = Ok [0%float; 0%float]
  ∧ EQ.backward ctx0 d_output = Ok [0%float; 0%float]
  ∧ (∃ out ctx1, LT.forward ctx0 [a; b] = Ok (out, ctx1)
       ∧ LT.backward ctx1 d_output = Ok [0%float; 0%float])
  ∧ (∃ out ctx1, EQ.forward ctx0 [a; b] = Ok (out, ctx1)
       ∧ EQ.backward ctx1 d_output = Ok [0%float; 0%float]).
Proof.
  split; [reflexivity|]. split; [reflexivity|].
  split; do 2 eexists; split; reflexivity.
Qed.

(** C4: [Mul.forward(ctx, a, b)] returns [a * b] and saves the pair
    [(a, b)] in the context; [Mul.backward] on that context with incoming
    gradient [d] returns [(b * d, a * d)]. *)
Theorem Mul_forward_saves_backward_uses (ctx0 : Context) (a b d : float) :
  ∃ ctx1,
    Mul.forward ctx0 [a; b] = Ok ((a * b)%float, ctx1)
    ∧ saved_values ctx1 = Some [a; b]
    ∧ no_grad ctx1 = no_grad ctx0
    ∧ Mul.backward ctx1 d = Ok [(b * d)%float; (a * d)%float].
Proof.
  exists (save_for_backward ctx0 [a; b]). repeat split.
Qed.

(** C10: a scalar is true exactly when its data is not a zero of the
    floats; identity, history and name play no part. *)
Theorem Scalar_bool_iff_nonzero (s : Scalar) :
  (Scalar__bool__ s = true ↔ ¬ (data s = 0%float ∨ data s = (-0)%float))
  ∧ (Scalar__bool__ s = false ↔ (data s =? 0)%float = true)
  ∧ (∀ uid h n, Scalar__bool__ (mkScalar uid (data s) h n) = Scalar__bool__ s).
Proof.
  unfold Scalar__bool__, float_bool. rewrite <- float_eqb_zero. simpl.
  destruct (data s =? 0)%float; simpl.
  - split; [split; [discriminate | intros H; by destruct H] | by split].
  - split; [split; [discriminate | done] | by split].
Qed.

(** Every scalar function of this file returns on its own arity. *)
Lemma apply_binary_ok (cls : ScalarFunction) (g : float -> float -> float)
    (keep : Context -> list float -> Context) (x y : Arg Scalar) (st : Store) :
  (∀ ctx a b, forward cls ctx [a; b] = Ok (g a b, keep ctx [a; b])) →
  ∃ st',
    apply cls [x; y] st =
      (Ok (mkScalar (S (variable_count st)) (g (raw_value x) (raw_value y))
             (if needs_grad st [x; y]
              then Some (mkHistory (Some cls)
                           (Some (keep (mkContext false None)
                                    [raw_value x; raw_value y])) [x; y])
              else None)
             None), st')
    ∧ st' = (if needs_grad st [x; y]
             then set_requires_grad (S (variable_count st)) true (allocate st)
             else allocate st).
Proof.
  intros Hfw. eexists. split; [|reflexivity].
  rewrite (apply_ok cls [x; y] st (g (raw_value x) (raw_value y))
             (keep (mkContext (negb (needs_grad st [x; y])) None)
                [raw_value x; raw_value y])) by apply Hfw.
  by destruct (needs_grad st [x; y]).
Qed.

Lemma apply_unary_ok (cls : ScalarFunction) (g : float -> float)
    (keep : Context -> list float -> Context) (x : Arg Scalar) (st : Store) :
  (∀ ctx a, forward cls ctx [a] = Ok (g a, keep ctx [a])) →
  ∃ st',
    apply cls [x] st =
      (Ok (mkScalar (S (variable_count st)) (g (raw_value x))
             (if needs_grad st [x]
              then Some (mkHistory (Some cls)
                           (Some (keep (mkContext false None) [raw_value x])) [x])
              else None)
             None), st')
    ∧ st' = (if needs_grad st [x]
             then set_requires_grad (S (variable_count st)) true (allocate st)
             else allocate st).
Proof.
  intros Hfw. eexists. split; [|reflexivity].
  rewrite (apply_ok cls [x] st (g (raw_value x))
             (keep (mkContext (negb (needs_grad st [x])) None) [raw_value x]))
    by apply Hfw.
  by destruct (needs_grad st [x]).
Qed.

Lemma Add_apply_ok (x y : Arg Scalar) (st : Store) :
  ∃ st',
    Add.apply [x; y] st =
      (Ok (mkScalar (S (variable_count st)) (raw_value x + raw_value y)%float
             (if needs_grad st [x; y]
              then Some (mkHistory (Some Add.cls) (Some (mkContext false None))
                           [x; y])
              else None) None), st')
    ∧ st' = (if needs_grad st [x; y]
             then set_requires_grad (S (variable_count st)) true (allocate st)
             else allocate st).
Proof. by apply (apply_binary_ok Add.cls PrimFloat.add keep_context). Qed.

Lemma Mul_apply_ok (x y : Arg Scalar) (st : Store) :
  ∃ st',
    Mul.apply [x; y] st =
      (Ok (mkScalar (S (variable_count st)) (raw_value x * raw_value y)%float
             (if needs_grad st [x; y]
              then Some (mkHistory (Some Mul.cls)
                           (Some (mkContext false
                                    (Some [raw_value x; raw_value y]))) [x; y])
              else None) None), st')
    ∧ st' = (if needs_grad st [x; y]
             then set_requires_grad (S (variable_count st)) true (allocate st)
             else allocate st).
Proof. by apply (apply_binary_ok Mul.cls PrimFloat.mul save_for_backward). Qed.

Lemma LT_apply_ok (x y : Arg Scalar) (st : Store) :
  ∃ st',
    LT.apply [x; y] st =
      (Ok (mkScalar (S (variable_count st))
             (operators.lt (raw_value x) (raw_value y))
             (if needs_grad st [x; y]
              then Some (mkHistory (Some LT.cls) (Some (mkContext false None))
                           [x; y])
              else None) None), st')
    ∧ st' = (if needs_grad st [x; y]
             then set_requires_grad (S (variable_count st)) true (allocate st)
             else allocate st).
Proof. by apply (apply_binary_ok LT.cls operators.lt keep_context). Qed.

Lemma EQ_apply_ok (x y : Arg Scalar) (st : Store) :
  ∃ st',
    EQ.apply [x; y] st =
      (Ok (mkScalar (S (variable_count st))
             (operators.eq (raw_value x) (raw_value y))
             (if needs_grad st [x; y]
              then Some (mkHistory (Some EQ.cls) (Some (mkContext false None))
                           [x; y])
              else None) None), st')
    ∧ st' = (if needs_grad st [x; y]
             then set_requires_grad (S (variable_count st)) true (allocate st)
             else allocate st).
Proof. by apply (apply_binary_ok EQ.cls operators.eq keep_context). Qed.

Lemma Inv_apply_ok (x : Arg Scalar) (st : Store) :
  ∃ st',
    Inv.apply [x] st =
      (Ok (mkScalar (S (variable_count st)) (1 / raw_value x)%float
             (if needs_grad st [x]
              then Some (mkHistory (Some Inv.cls)
                           (Some (mkContext false (Some [raw_value x]))) [x])
              else None) None), st')
    ∧ st' = (if needs_grad st [x]
             then set_requires_grad (S (variable_count st)) true (allocate st)
             else allocate st).
Proof. by apply (apply_unary_ok Inv.cls operators.inv save_for_backward). Qed.

Lemma Neg_apply_ok (x : Arg Scalar) (st : Store) :
  ∃ st',
    Neg.apply [x] st =
      (Ok (mkScalar (S (variable_count st)) (- raw_value x)%float
             (if needs_grad st [x]
              then Some (mkHistory (Some Neg.cls) (Some (mkContext false None))
                           [x])
              else None) None), st')
    ∧ st' = (if needs_grad st [x]
             then set_requires_grad (S (variable_count st)) true (allocate st)
             else allocate st).
Proof. by apply (apply_unary_ok Neg.cls operators.neg keep_context). Qed.

(** ** The operators of [Scalar] *)

Lemma Scalar_truediv_ok (x : Scalar) (y : Arg Scalar) (st : Store) :
  ∃ i q st1 st2,
    Inv.apply [y] st = (Ok i, st1)
    ∧ Mul.apply [AVar x; AVar i] st1 = (Ok q, st2)
    ∧ Scalar__truediv__ x y st = (Ok q, st2)
    ∧ data i = (1 / raw_value y)%float
    ∧ data q = (data x * (1 / raw_value y))%float
    ∧ history q =
        (if needs_grad st1 [AVar x; AVar i]
         then Some (mkHistory (Some Mul.cls)
                      (Some (mkContext false (Some [data x; data i])))
                      [AVar x; AVar i])
         else None).
Proof.
  destruct (Inv_apply_ok y st) as (st1 & Hi & _).
  destruct (Mul_apply_ok (AVar x) (AVar (mkScalar (S (variable_count st))
              (1 / raw_value y)%float
              (if needs_grad st [y]
               then Some (mkHistory (Some Inv.cls)
                            (Some (mkContext false (Some [raw_value y]))) [y])
               else None) None)) st1) as (st2 & Hm & _).
  eexists _, _, st1, st2. split; [exact Hi|]. split; [exact Hm|].
  split; [|by repeat split].
  unfold Scalar__truediv__. by rewrite (bind_ok _ _ _ _ _ Hi).
Qed.

Lemma Scalar_rtruediv_ok (x : Scalar) (y : Arg Scalar) (st : Store) :
  ∃ i q st1 st2,
    Inv.apply [AVar x] st = (Ok i, st1)
    ∧ Mul.apply [y; AVar i] st1 = (Ok q, st2)
    ∧ Scalar__rtruediv__ x y st = (Ok q, st2)
    ∧ data i = (1 / data x)%float
    ∧ data q = (raw_value y * (1 / data x))%float
    ∧ history q =
        (if needs_grad st1 [y; AVar i]
         then Some (mkHistory (Some Mul.cls)
                      (Some (mkContext false (Some [raw_value y; data i])))
                      [y; AVar i])
         else None).
Proof.
  destruct (Inv_apply_ok (AVar x) st) as (st1 & Hi & _).
  destruct (Mul_apply_ok y (AVar (mkScalar (S (variable_count st))
              (1 / raw_value (AVar x))%float
              (if needs_grad st [AVar x]
               then Some (mkHistory (Some Inv.cls)
                            (Some (mkContext false (Some [raw_value (AVar x)])))
                            [AVar x])
               else None) None)) st1) as (st2 & Hm & _).
  eexists _, _, st1, st2. split; [exact Hi|]. split; [exact Hm|].
  split; [|by repeat split].
  unfold Scalar__rtruediv__. by rewrite (bind_ok _ _ _ _ _ Hi).
Qed.

Lemma Scalar_sub_ok (x : Scalar) (y : Arg Scalar) (st : Store) :
  ∃ n q st1 st2,
    Neg.apply [y] st = (Ok n, st1)
    ∧ Add.apply [AVar x; AVar n] st1 = (Ok q, st2)
    ∧ Scalar__sub__ x y st = (Ok q, st2)
    ∧ data n = (- raw_value y)%float
    ∧ data q = (data x + - raw_value y)%float
    ∧ history q =
        (if needs_grad st1 [AVar x; AVar n]
         then Some (mkHistory (Some Add.cls) (Some (mkContext false None))
                      [AVar x; AVar n])
         else None).
Proof.
  destruct (Neg_apply_ok y st) as (st1 & Hn & _).
  destruct (Add_apply_ok (AVar x) (AVar (mkScalar (S (variable_count st))
              (- raw_value y)%float
              (if needs_grad st [y]
               then Some (mkHistory (Some Neg.cls)
                            (Some (mkContext false None)) [y])
               else None) None)) st1) as (st2 & Ha & _).
  eexists _, _, st1, st2. split; [exact Hn|]. split; [exact Ha|].
  split; [|by repeat split].
  unfold Scalar__sub__. by rewrite (bind_ok _ _ _ _ _ Hn).
Qed.

(** C5: [x / y] is [Mul] applied to [x] and [Inv] of [y], a raw numerator
    [y / x] is [Mul] applied to [y] and [Inv] of [x], and [x - y] is [Add]
    applied to [x] and [Neg] of [y]; the data are [x.data * (1 / y.data)],
    [y * (1 / x.data)] and [x.data + (-(y.data))], and a tracked result
    records [Mul] (or [Add]) as its operation. *)
Theorem division_and_subtraction_are_composed (x : Scalar) (y : Arg Scalar)
    (st : Store) :
  (∃ i q st1 st2,
      Inv.apply [y] st = (Ok i, st1)
      ∧ Mul.apply [AVar x; AVar i] st1 = (Ok q, st2)
      ∧ Scalar__truediv__ x y st = (Ok q, st2)
      ∧ data i = (1 / raw_value y)%float
      ∧ data q = (data x * (1 / raw_value y))%float
      ∧ history q =
          (if needs_grad st1 [AVar x; AVar i]
           then Some (mkHistory (Some Mul.cls)
                        (Some (mkContext false (Some [data x; data i])))
                        [AVar x; AVar i])
           else None))
  ∧ (∃ i q st1 st2,
      Inv.apply [AVar x] st = (Ok i, st1)
      ∧ Mul.apply [y; AVar i] st1 = (Ok q, st2)
      ∧ Scalar__rtruediv__ x y st = (Ok q, st2)
      ∧ data i = (1 / data x)%float
      ∧ data q = (raw_value y * (1 / data x))%float
      ∧ history q =
          (if needs_grad st1 [y; AVar i]
           then Some (mkHistory (Some Mul.cls)
                        (Some (mkContext false (Some [raw_value y; data i])))
                        [y; AVar i])
           else None))
  ∧ (∃ n q st1 st2,
      Neg.apply [y] st = (Ok n, st1)
      ∧ Add.apply [AVar x; AVar n] st1 = (Ok q, st2)
      ∧ Scalar__sub__ x y st = (Ok q, st2)
      ∧ data n = (- raw_value y)%float
      ∧ data q = (data x + - raw_value y)%float
      ∧ history q =
          (if needs_grad st1 [AVar x; AVar n]
           then Some (mkHistory (Some Add.cls) (Some (mkContext false None))
                        [AVar x; AVar n])
           else None)).
Proof.
  split; [apply Scalar_truediv_ok | split].
  - apply Scalar_rtruediv_ok.
  - apply Scalar_sub_ok.
Qed.

(** C6: [a > b] is [LT] applied to [(b, a)], the very application that
    [b < a] makes; whatever the stores they run in, both return, and the
    data of the two results are equal: 1.0 if [b.data < a.data], else 0.0. *)
Theorem gt_is_swapped_lt (a b : Scalar) (st st' : Store) :
  Scalar__gt__ a (AVar b) = LT.apply [AVar b; AVar a]
  ∧ Scalar__lt__ b (AVar a) = LT.apply [AVar b; AVar a]
  ∧ ∃ r1 st1 r2 st2,
      Scalar__gt__ a (AVar b) st = (Ok r1, st1)
      ∧ Scalar__lt__ b (AVar a) st' = (Ok r2, st2)
      ∧ data r1 = data r2
      ∧ data r1 = (if (data b <? data a)%float then 1 else 0)%float
      ∧ history r1 =
          (if needs_grad st [AVar b; AVar a]
           then Some (mkHistory (Some LT.cls) (Some (mkContext false None))
                        [AVar b; AVar a])
           else None).
Proof.
  split; [reflexivity|]. split; [reflexivity|].
  unfold Scalar__gt__, Scalar__lt__.
  destruct (LT_apply_ok (AVar b) (AVar a) st) as (st1 & H1 & _).
  destruct (LT_apply_ok (AVar b) (AVar a) st') as (st2 & H2 & _).
  eexists _, st1, _, st2. split; [exact H1|]. split; [exact H2|].
  by repeat split.
Qed.

(** C9: [a == b] is [EQ] applied to [(a, b)]; it returns a new scalar, not
    a boolean, whose data is 1.0 if [a.data] equals [b.data] and 0.0
    otherwise; the identities of [a] and [b] play no part in it. *)
Theorem eq_is_EQ_application (a b : Scalar) (st : Store) :
  Scalar__eq__ a (AVar b) = EQ.apply [AVar a; AVar b]
  ∧ ∃ r st1,
      Scalar__eq__ a (AVar b) st = (Ok r, st1)
      ∧ data r = (if (data a =? data b)%float then 1 else 0)%float
      ∧ unique_id r = S (variable_count st)
      ∧ history r =
          (if needs_grad st [AVar a; AVar b]
           then Some (mkHistory (Some EQ.cls) (Some (mkContext false None))
                        [AVar a; AVar b])
           else None).
Proof.
  split; [reflexivity|]. unfold Scalar__eq__.
  destruct (EQ_apply_ok (AVar a) (AVar b) st) as (st1 & H1 & _).
  eexists _, st1. split; [exact H1|]. by repeat split.
Qed.

(** ** Central difference *)

Lemma perturb_nil (g : float -> float) (arg : Z) : perturb g arg [] = [].
Proof. unfold perturb. by destruct (0 <=? arg)%Z. Qed.

Lemma perturb_cons (g : float -> float) (arg : Z) (v : float) (vals : list float) :
  perturb g arg (v :: vals) =
    (if (arg =? 0)%Z then g v else v) :: perturb g (arg - 1) vals.
Proof.
  unfold perturb.
  destruct (Z.eqb_spec arg 0) as [-> | Hne]; simpl.
  - reflexivity.
  - destruct (Z.leb_spec 0 arg) as [Hle | Hlt].
    + replace (0 <=? arg - 1)%Z with true by (symmetry; apply Z.leb_le; lia).
      replace (Z.to_nat arg) with (S (Z.to_nat (arg - 1))) by lia.
      reflexivity.
    + replace (0 <=? arg - 1)%Z with false by (symmetry; apply Z.leb_gt; lia).
      reflexivity.
Qed.

Lemma perturb_lookup (g : float -> float) (arg : Z) (vals : list float) (j : nat) :
  perturb g arg vals !! j =
    if decide (Z.of_nat j = arg) then g <$> vals !! j else vals !! j.
Proof.
  unfold perturb. destruct (Z.leb_spec 0 arg) as [Hle | Hlt].
  - case_decide as Hj.
    + replace (Z.to_nat arg) with j by lia. rewrite list_lookup_alter. by rewrite decide_True.
    + rewrite list_lookup_alter. rewrite decide_False; [done | lia].
  - case_decide as Hj; [lia | done].
Qed.

(** On floats the comprehension of [central_difference] computes [perturb]. *)
Lemma shifted_vals_float (g : float -> float -> float) (arg : Z)
    (epsilon : float) (vals : list float) (i : nat) (st : Store) :
  shifted_vals (fun x e => mret (g x e)) arg epsilon i vals st =
    (Ok (perturb (fun v => g v epsilon) (arg - Z.of_nat i) vals), st).
Proof.
  revert i. induction vals as [|v vals IH]; intros i.
  - by rewrite perturb_nil.
  - rewrite perturb_cons. simpl.
    unfold mbind, M_bind, bind, mret, M_ret, ret.
    replace (arg - Z.of_nat i =? 0)%Z with (Z.of_nat i =? arg)%Z
      by (destruct (Z.eqb_spec (Z.of_nat i) arg), (Z.eqb_spec (arg - Z.of_nat i) 0); lia).
    specialize (IH (S i)).
    replace (arg - Z.of_nat i - 1)%Z with (arg - Z.of_nat (S i))%Z by lia.
    unfold mret, M_ret, ret in IH.
    destruct (Z.of_nat i =? arg)%Z; by rewrite IH.
Qed.

(** C7, as the code has it: on floats, [central_difference(f, *vals, arg,
    epsilon)] evaluates [(f(plus) - f(minus)) / (2 * epsilon)], where
    [plus] and [minus] are [vals] with [epsilon] added to, and subtracted
    from, the value at position [arg] and every other value unchanged;
    [arg] defaults to 0 and [epsilon] to 1e-6.  The division is Python's:
    it returns the quotient of binary64 unless [2 * epsilon] is a zero, and
    raises [ZeroDivisionError] if it is; with the default epsilon it
    returns. *)
Theorem central_difference_formula (f : list float -> float) (vals : list float)
    (arg : option Z) (epsilon : option float) (st : Store) :
  let i := default 0%Z arg in
  let e := default 1e-6%float epsilon in
  let plus := perturb (fun v => v + e)%float i vals in
  let minus := perturb (fun v => v - e)%float i vals in
  central_difference (fun l => mret (f l)) vals arg epsilon st =
    (float_truediv (f plus - f minus) (2 * e), st)
  ∧ float_truediv (f plus - f minus) (2 * e) =
      (if (2 * e =? 0)%float then Raise ZeroDivisionError
       else Ok ((f plus - f minus) / (2 * e))%float)
  ∧ float_truediv (f plus - f minus) (2 * default_epsilon) =
      Ok ((f plus - f minus) / (2 * default_epsilon))%float
  ∧ length plus = length vals ∧ length minus = length vals
  ∧ (∀ j : nat, plus !! j =
       if decide (Z.of_nat j = i) then (fun v => v + e)%float <$> vals !! j
       else vals !! j)
  ∧ (∀ j : nat, minus !! j =
       if decide (Z.of_nat j = i) then (fun v => v - e)%float <$> vals !! j
       else vals !! j).
Proof.
  intros i e plus minus. split; [|split; [|split; [|split; [|split; [|split]]]]].
  - unfold central_difference. fold i e. unfold default_arg, default_epsilon.
    simpl.
    rewrite (bind_ok _ _ _ _ _ (shifted_vals_float PrimFloat.sub i e vals 0 st)).
    rewrite (bind_ok _ _ _ _ _ (shifted_vals_float PrimFloat.add i e vals 0 st)).
    replace (i - Z.of_nat 0)%Z with i by lia. reflexivity.
  - reflexivity.
  - reflexivity.
  - unfold plus, perturb. destruct (0 <=? i)%Z; [apply length_alter | done].
  - unfold minus, perturb. destruct (0 <=? i)%Z; [apply length_alter | done].
  - intros j. apply perturb_lookup.
  - intros j. apply perturb_lookup.
Qed.

(** C7 as it is written fails: with [epsilon = 0.0] the call does not
    return the quotient, it raises [ZeroDivisionError]. *)
Lemma central_difference_zero_epsilon :
  (central_difference (fun l : list float => mret (hd 0%float l))
     [1%float] None (Some 0%float) Store_init).1
  = Raise ZeroDivisionError.
Proof. reflexivity. Qed.

(** ** Backward propagation *)

(** [Scalar(v)] builds a scalar with the next identity and the default
    history. *)
Lemma Scalar_new_ok (v : float) (st : Store) :
  Scalar_new v st =
    (Ok (mkScalar (S (variable_count st)) v (Some History_empty) None),
     allocate st).
Proof. reflexivity. Qed.

Lemma topological_order_leaf (x : Scalar) :
  history x = Some History_empty ∨ history x = None →
  topological_order x = [x].
Proof.
  destruct x as [uid d h n]. simpl. intros Hh.
  unfold topological_order. simpl.
  destruct (decide (uid ∈ (∅ : gset nat))) as [Hin | _]; [set_solver|].
  by destruct Hh as [-> | ->].
Qed.

Lemma Variable_backward_leaf (x : Scalar) (d_output : option float) (st : Store) :
  history x = Some History_empty ∨ history x = None →
  Variable_backward x d_output st =
    (Ok tt,
     if requires_grad st x
     then set_derivative (unique_id x) (Some (default 1%float d_output)) st
     else st).
Proof.
  intros Hh. unfold Variable_backward. rewrite (topological_order_leaf x Hh).
  simpl. unfold visit_variable. rewrite lookup_singleton_eq.
  unfold mbind, M_bind, bind, gets, modify, mret, M_ret, ret.
  destruct Hh as [-> | ->]; simpl; by destruct (requires_grad st x).
Qed.

Lemma requires_grad_set (uid : nat) (st : Store) (x : Scalar) :
  requires_grad (set_requires_grad uid true st) x =
    bool_decide (unique_id x = uid) || requires_grad st x.
Proof.
  unfold requires_grad, set_requires_grad. simpl.
  destruct (decide (unique_id x = uid)) as [-> | Hne].
  - rewrite (bool_decide_eq_true_2 (_ ∈ _)) by set_solver.
    by rewrite (bool_decide_eq_true_2 (_ = _)).
  - rewrite (bool_decide_eq_false_2 (unique_id x = uid)) by done. simpl.
    apply bool_decide_ext. set_solver.
Qed.

Lemma requires_grad_allocate (st : Store) (x : Scalar) :
  requires_grad (allocate st) x =
    negb (bool_decide (unique_id x = S (variable_count st))) && requires_grad st x.
Proof.
  unfold requires_grad, allocate. simpl.
  destruct (decide (unique_id x = S (variable_count st))) as [-> | Hne].
  - rewrite (bool_decide_eq_true_2 (_ = _)) by done. simpl.
    apply bool_decide_eq_false_2. set_solver.
  - rewrite (bool_decide_eq_false_2 (unique_id x = _)) by done. simpl.
    apply bool_decide_ext. set_solver.
Qed.

Lemma visit_seen (v : Scalar) (acc : gset nat * list Scalar) :
  unique_id v ∈ acc.1 → visit v acc = acc.
Proof. destruct v as [uid d h n]. simpl. intros H. by rewrite decide_True. Qed.

Lemma visit_leaf (v : Scalar) (acc : gset nat * list Scalar) :
  history v = Some History_empty ∨ history v = None →
  unique_id v ∉ acc.1 →
  visit v acc = ({[unique_id v]} ∪ acc.1, v :: acc.2).
Proof.
  destruct v as [uid d h n]. simpl. intros Hh Hnin.
  rewrite decide_False by done. by destruct Hh as [-> | ->].
Qed.

Lemma visit_binary (v x y : Scalar) (fn : option ScalarFunction)
    (c : option Context) (acc : gset nat * list Scalar) :
  history v = Some (mkHistory fn c [AVar x; AVar y]) →
  unique_id v ∉ acc.1 →
  visit v acc =
    ({[unique_id v]} ∪ (visit y (visit x acc)).1,
     v :: (visit y (visit x acc)).2).
Proof.
  destruct v as [uid d h n]. simpl. intros -> Hnin.
  by rewrite decide_False by done.
Qed.

Lemma visit_variable_interior (v : Scalar) (fn : ScalarFunction) (c : Context)
    (ins : list (Arg Scalar)) (grads : gmap nat float) (d : float)
    (gs : list float) (st : Store) :
  history v = Some (mkHistory (Some fn) (Some c) ins) →
  grads !! unique_id v = Some d →
  backward fn c d = Ok gs →
  visit_variable v grads st = (Ok (route ins gs grads), st).
Proof.
  intros Hh Hd Hb. unfold visit_variable. rewrite Hd, Hh.
  unfold mbind, M_bind, bind, lift. by rewrite Hb.
Qed.

Lemma visit_variable_leaf (v : Scalar) (grads : gmap nat float) (d : float)
    (st : Store) :
  history v = Some History_empty ∨ history v = None →
  grads !! unique_id v = Some d →
  visit_variable v grads st =
    (Ok grads,
     if requires_grad st v then set_derivative (unique_id v) (Some d) st
     else st).
Proof.
  intros Hh Hd. unfold visit_variable. rewrite Hd.
  unfold mbind, M_bind, bind, gets, modify, mret, M_ret, ret.
  destruct Hh as [-> | ->]; simpl; by destruct (requires_grad st v).
Qed.

Lemma requires_grad_set_derivative (uid : nat) (d : option float) (st : Store)
    (x : Scalar) :
  requires_grad (set_derivative uid d st) x = requires_grad st x.
Proof. reflexivity. Qed.

Lemma add_grad_lookup (grads : gmap nat float) (uid : nat) (g : float) :
  add_grad grads uid g !! uid =
    Some (match grads !! uid with
          | Some total => (total + g)%float
          | None => g
          end).
Proof. unfold add_grad. apply lookup_insert_eq. Qed.

Lemma add_grad_lookup_ne (grads : gmap nat float) (uid uid' : nat) (g : float) :
  uid ≠ uid' → add_grad grads uid g !! uid' = grads !! uid'.
Proof. intros H. unfold add_grad. by apply lookup_insert_ne. Qed.

(** C1: in any store, with [a = Scalar(2.0)] and [b = Scalar(3.0)] both
    requesting gradients, [c = a * b + a] has data 8.0, and after
    [c.backward()] the derivative of [a] is 4.0 (3.0 through [Mul] plus 1.0
    through [Add]) and the derivative of [b] is 2.0. *)
Theorem end_to_end_example_result (st : Store) :
  ∃ a b c st',
    end_to_end_example st = (Ok (a, b, c), st')
    ∧ data a = 2%float ∧ data b = 3%float
    ∧ data c = 8%float
    ∧ derivative st' a = Some 4%float
    ∧ derivative st' a = Some (1 + data b * 1)%float
    ∧ derivative st' b = Some 2%float
    ∧ derivative st' b = Some (data a * 1)%float.
Proof.
  unfold end_to_end_example.
  set (n := variable_count st).
  set (a := mkScalar (S n) 2 (Some History_empty) None).
  set (b := mkScalar (S (S n)) 3 (Some History_empty) None).
  rewrite (bind_ok _ _ _ _ _ (Scalar_new_ok 2 st)). fold n a.
  rewrite (bind_ok _ _ _ _ _ (Scalar_new_ok 3 (allocate st))).
  change (S (variable_count (allocate st))) with (S (S n)). fold b.
  set (st2 := set_requires_grad (S (S n)) true
                (set_requires_grad (S n) true (allocate (allocate st)))).
  change ((requires_grad_ a true ≫= _) (allocate (allocate st)))
    with ((λ _ : (), requires_grad_ b true ≫= λ _ : (), Scalar__mul__ a (AVar b) ≫= λ t, Scalar__add__ t (AVar a) ≫= λ c, Variable_backward c None ≫= λ _ : (), mret (a, b, c)) tt (set_requires_grad (S n) true (allocate (allocate st)))).
  cbv beta.
  change ((requires_grad_ b true ≫= _) (set_requires_grad (S n) true (allocate (allocate st))))
    with ((Scalar__mul__ a (AVar b) ≫= λ t, Scalar__add__ t (AVar a) ≫= λ c, Variable_backward c None ≫= λ _ : (), mret (a, b, c)) st2).
  assert (Ha2 : requires_grad st2 a = true).
  { unfold st2. rewrite !requires_grad_set. simpl.
    rewrite (bool_decide_eq_true_2 (S n = S n)) by done. by rewrite orb_true_r. }
  assert (Hb2 : requires_grad st2 b = true).
  { unfold st2. rewrite !requires_grad_set. simpl.
    by rewrite (bool_decide_eq_true_2 (S (S n) = S (S n))) by done. }
  destruct (Mul_apply_ok (AVar a) (AVar b) st2) as (st3 & Hmul & Hst3).
  assert (Hng : needs_grad st2 [AVar a; AVar b] = true).
  { simpl. by rewrite Ha2. }
  rewrite Hng in Hmul, Hst3.
  change (variable_count st2) with (S (S n)) in Hmul, Hst3.
  unfold Scalar__mul__. rewrite (bind_ok _ _ _ _ _ Hmul).
  simpl raw_value. clear Hmul.
  set (t := mkScalar (S (S (S n))) (2 * 3)%float
              (Some (mkHistory (Some Mul.cls)
                       (Some (mkContext false (Some [2%float; 3%float])))
                       [AVar a; AVar b])) None).
  destruct (Add_apply_ok (AVar t) (AVar a) st3) as (st4 & Hadd & Hst4).
  assert (Hng' : needs_grad st3 [AVar t; AVar a] = true).
  { simpl. rewrite Hst3, requires_grad_set. simpl.
    by rewrite (bool_decide_eq_true_2 (S (S (S n)) = S (S (S n)))) by done. }
  rewrite Hng' in Hadd, Hst4.
  replace (variable_count st3) with (S (S (S n))) in Hadd, Hst4 by (by rewrite Hst3).
  unfold Scalar__add__. rewrite (bind_ok _ _ _ _ _ Hadd).
  simpl raw_value. clear Hadd.
  set (c := mkScalar (S (S (S (S n)))) (2 * 3 + 2)%float
              (Some (mkHistory (Some Add.cls) (Some (mkContext false None))
                       [AVar t; AVar a])) None).
  assert (Horder : topological_order c = [c; t; b; a]).
  { unfold topological_order.
    rewrite (visit_binary c t a (Some Add.cls) (Some (mkContext false None)));
      [ | reflexivity | set_solver ].
    rewrite (visit_binary t a b (Some Mul.cls)
               (Some (mkContext false (Some [2%float; 3%float]))));
      [ | reflexivity | set_solver ].
    rewrite (visit_leaf a (∅, [])); [ | by left | set_solver ].
    rewrite (visit_leaf b); [ | by left | simpl; set_solver by lia ].
    rewrite (visit_seen a); [ | simpl; set_solver ].
    reflexivity. }
  assert (Hfl : ∀ x, requires_grad st4 x = requires_grad st3 x
                       || bool_decide (unique_id x = S (S (S (S n))))).
  { intros x. rewrite Hst4, requires_grad_set, requires_grad_allocate.
    replace (variable_count st3) with (S (S (S n))) by (by rewrite Hst3).
    by destruct (bool_decide (unique_id x = S (S (S (S n))))),
      (requires_grad st3 x). }
  assert (Hfl3 : ∀ x, requires_grad st3 x = requires_grad st2 x
                       || bool_decide (unique_id x = S (S (S n)))).
  { intros x. rewrite Hst3, requires_grad_set, requires_grad_allocate.
    change (variable_count st2) with (S (S n)).
    by destruct (bool_decide (unique_id x = S (S (S n)))),
      (requires_grad st2 x). }
  assert (Hback : Variable_backward c None st4 =
            (Ok tt, set_derivative (S n) (Some 4%float)
                      (set_derivative (S (S n)) (Some 2%float) st4))).
  { unfold Variable_backward. rewrite Horder. simpl default.
    cbn [visit_all].
    erewrite (bind_ok (visit_variable c _)); last first.
    { eapply visit_variable_interior;
        [reflexivity | apply lookup_singleton_eq | reflexivity]. }
    cbn [route unique_id t a c].
    erewrite (bind_ok (visit_variable t _)); last first.
    { eapply visit_variable_interior; [reflexivity | | reflexivity].
      change (unique_id t) with (S (S (S n))).
      rewrite add_grad_lookup_ne by lia. rewrite add_grad_lookup.
      rewrite lookup_singleton_ne by lia. reflexivity. }
    cbn [route unique_id a b].
    erewrite (bind_ok (visit_variable b _)); last first.
    { eapply visit_variable_leaf; [by left | ].
      change (unique_id b) with (S (S n)). change (unique_id a) with (S n).
      rewrite add_grad_lookup.
      rewrite !add_grad_lookup_ne by lia.
      rewrite lookup_singleton_ne by lia. reflexivity. }
    rewrite Hfl, Hfl3, Hb2. cbn [orb].
    erewrite (bind_ok (visit_variable a _)); last first.
    { eapply visit_variable_leaf; [by left | ].
      change (unique_id b) with (S (S n)). change (unique_id a) with (S n).
      rewrite add_grad_lookup_ne by lia.
      rewrite add_grad_lookup. rewrite add_grad_lookup.
      rewrite add_grad_lookup_ne by lia.
      rewrite lookup_singleton_ne by lia. reflexivity. }
    rewrite requires_grad_set_derivative, Hfl, Hfl3, Ha2. cbn [orb].
    reflexivity. }
  rewrite (bind_ok _ _ _ _ _ Hback).
  eexists a, b, c, _. split; [reflexivity|].
  split; [reflexivity|]. split; [reflexivity|]. split; [reflexivity|].
  assert (Hda : derivative
                  (set_derivative (S n) (Some 4%float)
                     (set_derivative (S (S n)) (Some 2%float) st4)) a
                = Some 4%float).
  { unfold derivative. cbn [set_derivative derivatives unique_id a].
    apply lookup_insert_eq. }
  assert (Hdb : derivative
                  (set_derivative (S n) (Some 4%float)
                     (set_derivative (S (S n)) (Some 2%float) st4)) b
                = Some 2%float).
  { unfold derivative. cbn [set_derivative derivatives unique_id b].
    rewrite lookup_insert_ne by lia. apply lookup_insert_eq. }
  split; [exact Hda|]. split; [exact Hda|]. split; [exact Hdb|]. exact Hdb.
Qed.

(** C2: a scalar built from a number alone has no history: what it carries
    is the empty [History()], with no operation, no context and no inputs,
    and neither the leaf test nor the order of the backward pass nor the
    pass itself tells it from the absence of a history.  It is a leaf, and
    [backward] on it as root, once it requests gradients, sets its
    derivative to the seed (1.0 by default) and leaves the counter, the
    flags, the output and every other derivative as they were. *)
Theorem leaf_backward_sets_own_derivative (v : float) (d_output : option float)
    (st : Store) :
  ∃ x st1 st2,
    (x ← Scalar_new v; requires_grad_ x true;; mret x) st = (Ok x, st1)
    ∧ data x = v
    ∧ history x = Some History_empty
    ∧ history_is_none x = true
    ∧ is_leaf x = true
    ∧ is_leaf (without_history x) = true
    ∧ topological_order x = [x]
    ∧ topological_order (without_history x) = [without_history x]
    ∧ (∀ d s,
         Variable_backward (without_history x) d s = Variable_backward x d s)
    ∧ requires_grad st1 x = true
    ∧ Variable_backward x d_output st1 = (Ok tt, st2)
    ∧ leaf_backward v d_output st = (Ok x, st2)
    ∧ derivative st2 x = Some (default 1%float d_output)
    ∧ (∀ y, unique_id y ≠ unique_id x → derivative st2 y = derivative st1 y)
    ∧ variable_count st2 = variable_count st1
    ∧ requires_grad_flags st2 = requires_grad_flags st1
    ∧ stdout st2 = stdout st1.
Proof.
  set (x := mkScalar (S (variable_count st)) v (Some History_empty) None).
  set (st1 := set_requires_grad (S (variable_count st)) true (allocate st)).
  assert (Hrg : requires_grad st1 x = true).
  { unfold st1. rewrite requires_grad_set. simpl.
    by rewrite (bool_decide_eq_true_2 (_ = _)). }
  assert (Hback : Variable_backward x d_output st1 =
            (Ok tt, set_derivative (unique_id x)
                      (Some (default 1%float d_output)) st1)).
  { rewrite Variable_backward_leaf by (by left). by rewrite Hrg. }
  exists x, st1, (set_derivative (unique_id x) (Some (default 1%float d_output)) st1).
  split; [reflexivity|]. split; [reflexivity|]. split; [reflexivity|].
  split; [reflexivity|]. split; [reflexivity|]. split; [reflexivity|].
  split; [by apply topological_order_leaf; left|].
  split; [by apply topological_order_leaf; right|].
  split.
  { intros d s. rewrite (Variable_backward_leaf x) by (by left).
    by rewrite (Variable_backward_leaf (without_history x)) by (by right). }
  split; [exact Hrg|]. split; [exact Hback|].
  split.
  { unfold leaf_backward. rewrite (bind_ok _ _ _ _ _ (Scalar_new_ok v st)).
    fold x.
    change ((requires_grad_ x true ≫= _) (allocate st))
      with ((Variable_backward x d_output ≫= λ _ : (), mret x) st1).
    by rewrite (bind_ok _ _ _ _ _ Hback). }
  split.
  { unfold derivative. simpl. apply lookup_insert_eq. }
  split.
  { intros y Hy. unfold derivative. simpl. by rewrite lookup_insert_ne. }
  by repeat split.
Qed.

(** ** Loops *)

Lemma for_each_cons {A} (body : A -> M unit) (x : A) (l : list A) (st : Store) :
  for_each body (x :: l) st =
    match body x st with
    | (Ok _, st') => for_each body l st'
    | (Raise e, st') => (Raise e, st')
    end.
Proof. reflexivity. Qed.

(** A loop raises exactly when some iteration, reached after all earlier
    ones returned, raises. *)
Lemma for_each_raise_iff {A} (body : A -> M unit) (l : list A) (st : Store)
    (e : exception) :
  (for_each body l st).1 = Raise e ↔
  ∃ k x s, l !! k = Some x
           ∧ for_each body (take k l) st = (Ok tt, s)
           ∧ (body x s).1 = Raise e.
Proof.
  revert st. induction l as [|y l IH]; intros st.
  - split; [discriminate|]. by intros (k & x & s & Hk & _).
  - rewrite for_each_cons. split.
    + destruct (body y st) as [[[]|e'] st'] eqn:Hy.
      * intros H. apply IH in H as (k & x & s & Hk & Hpre & Hx).
        exists (S k), x, s. split; [done|]. split; [|done].
        simpl take. by rewrite for_each_cons, Hy.
      * simpl. intros [= ->]. exists 0, y, st. by rewrite Hy.
    + intros (k & x & s & Hk & Hpre & Hx). destruct k as [|k].
      * simpl in Hk, Hpre. injection Hk as ->. injection Hpre as ->.
        destruct (body x s) as [[[]|e'] st']; simpl in Hx; [done|].
        by rewrite Hx.
      * simpl in Hk. simpl take in Hpre. rewrite for_each_cons in Hpre.
        destruct (body y st) as [[[]|e'] st']; [|done].
        apply IH. by exists k, x, s.
Qed.

(** A loop returns exactly when every iteration, reached after all earlier
    ones returned, returns. *)
Lemma for_each_ok_iff {A} (body : A -> M unit) (l : list A) (st : Store) :
  (for_each body l st).1 = Ok tt ↔
  ∀ k x s, l !! k = Some x → for_each body (take k l) st = (Ok tt, s) →
           (body x s).1 = Ok tt.
Proof.
  revert st. induction l as [|y l IH]; intros st.
  - split; [|done]. by intros _ k x s Hk.
  - rewrite for_each_cons. split.
    + intros H k x s Hk Hpre. destruct k as [|k].
      * simpl in Hk, Hpre. injection Hk as ->. injection Hpre as ->.
        by destruct (body x s) as [[[]|e'] st'].
      * simpl in Hk. simpl take in Hpre. rewrite for_each_cons in Hpre.
        destruct (body y st) as [[[]|e'] st']; [|done].
        by apply (proj1 (IH st') H k x s).
    + intros H. pose proof (H 0 y st eq_refl eq_refl) as Hy.
      destruct (body y st) as [[[]|e'] st'] eqn:Ey; [|done].
      apply IH. intros k x s Hk Hpre. apply (H (S k) x s); [done|].
      simpl take. by rewrite for_each_cons, Ey.
Qed.

Lemma enumerate_from_lookup {A} (l : list A) (i k : nat) :
  enumerate_from i l !! k = (fun x => (i + k, x)) <$> l !! k.
Proof.
  revert i k. induction l as [|y l IH]; intros i k; [done|].
  destruct k as [|k]; simpl.
  - by rewrite Nat.add_0_r.
  - rewrite IH. by replace (S i + k) with (i + S k) by lia.
Qed.

Lemma enumerate_lookup {A} (l : list A) (k i : nat) (x : A) :
  enumerate l !! k = Some (i, x) ↔ i = k ∧ l !! k = Some x.
Proof.
  unfold enumerate. rewrite enumerate_from_lookup.
  destruct (l !! k) as [y|]; simpl; [|naive_solver].
  split; [by intros [= <- <-] | by intros [-> [= ->]]].
Qed.

(** Setting the flag of every input. *)
Lemma for_each_requires_grad (l : list Scalar) (st : Store) :
  ∃ st0,
    for_each (fun x => requires_grad_ x true) l st = (Ok tt, st0)
    ∧ (∀ y, requires_grad st0 y =
            requires_grad st y || bool_decide (unique_id y ∈ map unique_id l))
    ∧ variable_count st0 = variable_count st
    ∧ derivatives st0 = derivatives st
    ∧ stdout st0 = stdout st.
Proof.
  revert st. induction l as [|x l IH]; intros st.
  - exists st. split; [done|]. split; [|done]. intros y.
    rewrite bool_decide_eq_false_2; [by rewrite orb_false_r | set_solver].
  - destruct (IH (set_requires_grad (unique_id x) true st))
      as (st0 & Hrun & Hfl & Hc & Hd & Ho).
    exists st0. split; [exact Hrun|]. split; [|done].
    intros y. rewrite Hfl, requires_grad_set. simpl map.
    destruct (decide (unique_id y = unique_id x)) as [Heq | Hne].
    + rewrite (bool_decide_eq_true_2 (_ = _)) by done. simpl.
      rewrite (bool_decide_eq_true_2 (_ ∈ unique_id x :: _)) by set_solver.
      by rewrite orb_true_r.
    + rewrite (bool_decide_eq_false_2 (_ = _)) by done. simpl.
      f_equal. apply bool_decide_ext. set_solver.
Qed.

(** ** The operators of [Scalar] return *)

Lemma Scalar_add_returns (x : Scalar) (y : Arg Scalar) (st : Store) :
  ∃ r st', Scalar__add__ x y st = (Ok r, st').
Proof. destruct (Add_apply_ok (AVar x) y st) as (st' & H & _). eauto. Qed.

Lemma Scalar_sub_returns (x : Scalar) (y : Arg Scalar) (st : Store) :
  ∃ r st', Scalar__sub__ x y st = (Ok r, st').
Proof.
  destruct (Scalar_sub_ok x y st) as (n & q & st1 & st2 & _ & _ & H & _).
  eauto.
Qed.

Lemma Scalar_truediv_returns (x : Scalar) (y : Arg Scalar) (st : Store) :
  ∃ r st', Scalar__truediv__ x y st = (Ok r, st').
Proof.
  destruct (Scalar_truediv_ok x y st) as (i & q & st1 & st2 & _ & _ & H & _).
  eauto.
Qed.

Lemma shifted_vals_returns {V} (op : V -> float -> M V) (arg : Z)
    (epsilon : float) (vals : list V) (i : nat) (st : Store) :
  (∀ x e s, ∃ r s', op x e s = (Ok r, s')) →
  ∃ r st', shifted_vals op arg epsilon i vals st = (Ok r, st').
Proof.
  intros Hop. revert i st. induction vals as [|v vals IH]; intros i st.
  - by eexists _, _.
  - simpl. destruct (Z.of_nat i =? arg)%Z.
    + destruct (Hop v epsilon st) as (r & s' & Hr).
      rewrite (bind_ok _ _ _ _ _ Hr).
      destruct (IH (S i) s') as (rs & s'' & Hrs).
      rewrite (bind_ok _ _ _ _ _ Hrs). by eexists _, _.
    + destruct (IH (S i) st) as (rs & s'' & Hrs).
      unfold mbind, M_bind, bind, mret, M_ret, ret in *. rewrite Hrs.
      by eexists _, _.
Qed.

(** On scalars, [central_difference] raises only what [f] raises. *)
Lemma central_difference_raise (f : list Scalar -> M Scalar)
    (vals : list Scalar) (arg : option Z) (epsilon : option float)
    (st st' : Store) (e : exception) :
  central_difference f vals arg epsilon st = (Raise e, st') →
  ∃ l s, (f l s).1 = Raise e.
Proof.
  unfold central_difference.
  destruct (shifted_vals_returns sub_float (default default_arg arg)
              (default default_epsilon epsilon) vals 0 st)
    as (minus & s1 & Hminus).
  { intros x eps s. apply Scalar_sub_returns. }
  rewrite (bind_ok _ _ _ _ _ Hminus).
  destruct (shifted_vals_returns add_float (default default_arg arg)
              (default default_epsilon epsilon) vals 0 s1)
    as (plus & s2 & Hplus).
  { intros x eps s. apply Scalar_add_returns. }
  rewrite (bind_ok _ _ _ _ _ Hplus).
  destruct (f plus s2) as [[fp|e1] s3] eqn:Hfp.
  - rewrite (bind_ok _ _ _ _ _ Hfp).
    destruct (f minus s3) as [[fm|e2] s4] eqn:Hfm.
    + rewrite (bind_ok _ _ _ _ _ Hfm).
      destruct (Scalar_sub_returns fp (AVar fm) s4) as (diff & s5 & Hdiff).
      change (sub fp fm) with (Scalar__sub__ fp (AVar fm)).
      rewrite (bind_ok _ _ _ _ _ Hdiff).
      destruct (Scalar_truediv_returns diff
                  (ARaw (2 * default default_epsilon epsilon)%float) s5)
        as (r & s6 & Hr).
      change (truediv_float diff ?c) with (Scalar__truediv__ diff (ARaw c)).
      rewrite Hr. discriminate.
    + rewrite (bind_raise _ _ _ _ _ Hfm). intros [= -> ->].
      exists minus, s3. by rewrite Hfm.
  - rewrite (bind_raise _ _ _ _ _ Hfp). intros [= -> ->].
    exists plus, s2. by rewrite Hfp.
Qed.

Section DerivativeCheckFacts.
Variable allclose : float -> float -> float -> float -> bool.
Variable f : list Scalar -> M Scalar.
Variable scalars : list Scalar.

(** One iteration of the loop, once the estimate is there. *)
Lemma check_argument_ok (i : nat) (x check : Scalar) (s s' : Store) :
  central_difference f scalars (Some (Z.of_nat i)) None s = (Ok check, s') →
  (check_argument allclose f scalars scalars (i, x) s).1 =
    match derivative s' x with
    | None => Raise TypeError
    | Some d =>
        if allclose d (data check) 1e-2 1e-2 then Ok tt
        else Raise AssertionError
    end.
Proof.
  intros Hc. unfold check_argument. rewrite (bind_ok _ _ _ _ _ Hc).
  unfold mbind, M_bind, bind, gets, modify, assert_allclose, lift, mret, M_ret,
    ret, raise. simpl.
  destruct (derivative s' x) as [d|]; simpl; [|done].
  by destruct (allclose d (data check) 1e-2 1e-2).
Qed.

Lemma check_argument_raise (i : nat) (x : Scalar) (s s' : Store) (e : exception) :
  central_difference f scalars (Some (Z.of_nat i)) None s = (Raise e, s') →
  check_argument allclose f scalars scalars (i, x) s = (Raise e, s').
Proof. intros Hc. unfold check_argument. by rewrite (bind_raise _ _ _ _ _ Hc). Qed.

End DerivativeCheckFacts.

(** ** [derivative_check] at work *)

(** [x * x] at 2.0 passes: the derivative 4.0 is within tolerance of the
    estimate. *)
Example derivative_check_square_passes :
  (check_at square 2 Store_init).1 = Ok tt.
Proof. vm_compute. reflexivity. Qed.

(** [x < 2.0] at 2.0 fails: the derivative is 0.0, the estimate -500000. *)
Example derivative_check_step_fails :
  (check_at below_two 2 Store_init).1 = Raise AssertionError.
Proof. vm_compute. reflexivity. Qed.

(** The comparison used in these examples accepts what numpy accepts at
    NaNs and infinities. *)
Example tolerance_test_nan_and_infinity (rtol atol : float) :
  tolerance_test nan nan rtol atol = true
  ∧ tolerance_test infinity infinity rtol atol = true
  ∧ tolerance_test neg_infinity neg_infinity rtol atol = true
  ∧ tolerance_test infinity neg_infinity rtol atol = false
  ∧ tolerance_test nan 0 rtol atol = false
  ∧ tolerance_test 0 infinity rtol atol = false.
Proof. by repeat split. Qed.

(** C8: at [f(x, y) = y * y] with [Scalar(2.0)] and [Scalar(3.0)] the check
    ends in neither of the two outcomes of the claim, whatever the
    comparison of numpy answers.  The flags are set, [out] is 9.0 and its
    backward pass returns, leaving 6.0 as the derivative of [y]; it never
    reaches [x], whose derivative stays unset.  At [x] the estimate 0.0 is
    computed and printed, and formatting the message with [%f] of the unset
    derivative raises a type error before the comparison is called:
    neither an assertion error nor a normal return. *)
Theorem derivative_check_unused_input
    (allclose : float -> float -> float -> float -> bool) :
  ∃ st,
    check_at2 allclose square_of_second 2 3 Store_init = (Raise TypeError, st)
    ∧ (check_at2 allclose square_of_second 2 3 Store_init).1
      ≠ Raise AssertionError
    ∧ (check_at2 allclose square_of_second 2 3 Store_init).1 ≠ Ok tt
    ∧ requires_grad st x_two = true
    ∧ requires_grad st y_three = true
    ∧ derivative st x_two = None
    ∧ derivative st y_three = Some 6%float
    ∧ stdout st = [mkPrintLine [2%float; 3%float] None 0 0%float].
Proof. eexists. vm_compute. by repeat split. Qed.

(** * Further properties *)

(** ** Comparison and negation of floats *)

(** Swapping the operands of a comparison of floats swaps its outcome. *)
Lemma SFcompare_antisym (f1 f2 : spec_float) :
  SFcompare f2 f1 = CompOpp <$> SFcompare f1 f2.
Proof.
  destruct f1 as [s1 | s1 | | s1 m1 e1], f2 as [s2 | s2 | | s2 m2 e2];
    simpl; try reflexivity; try (by destruct s1, s2); try (by destruct s1);
    try (by destruct s2).
  destruct s1, s2; simpl; try reflexivity.
  - rewrite (Z.compare_antisym e1 e2).
    destruct (e1 ?= e2)%Z; simpl; try reflexivity.
    by rewrite (Pos.compare_cont_antisym m1 m2 Eq).
  - rewrite (Z.compare_antisym e1 e2).
    destruct (e1 ?= e2)%Z; simpl; try reflexivity.
    rewrite (Pos.compare_cont_antisym m1 m2 Eq). simpl.
    by rewrite ?CompOpp_involutive.
Qed.

(** Two floats do not compare exactly when one of them is the NaN. *)
Lemma SFcompare_None (f1 f2 : spec_float) :
  SFcompare f1 f2 = None ↔ f1 = S754_nan ∨ f2 = S754_nan.
Proof.
  destruct f1 as [s1 | s1 | | s1 m1 e1], f2 as [s2 | s2 | | s2 m2 e2];
    simpl; split; try discriminate; try (by left); try (by right);
    try (by intros [|]); auto.
Qed.

Lemma Prim2SF_nan (x : float) : Prim2SF x = S754_nan ↔ x = nan.
Proof.
  split; [|by intros ->]. intros H. apply Prim2SF_inj. by rewrite H.
Qed.

Lemma float_eqb_sym (x y : float) : (x =? y)%float = (y =? x)%float.
Proof.
  rewrite !FloatAxioms.eqb_spec. unfold SFeqb.
  rewrite (SFcompare_antisym (Prim2SF x) (Prim2SF y)).
  by destruct (SFcompare (Prim2SF x) (Prim2SF y)) as [[]|].
Qed.

Lemma float_opp_involutive (x : float) : (- - x)%float = x.
Proof.
  apply Prim2SF_inj. rewrite !opp_spec.
  destruct (Prim2SF x) as [s | s | | s m e]; simpl; by rewrite ?negb_involutive.
Qed.

(** The outcomes of [x < y], [x == y] and [y < x] on floats: all false
    when one is the NaN, exactly one true otherwise. *)
Lemma float_trichotomy (x y : float) :
  ((x = nan ∨ y = nan)
   ∧ (x <? y)%float = false ∧ (x =? y)%float = false ∧ (y <? x)%float = false)
  ∨ (x ≠ nan ∧ y ≠ nan
     ∧ (((x <? y)%float = true ∧ (x =? y)%float = false ∧ (y <? x)%float = false)
        ∨ ((x <? y)%float = false ∧ (x =? y)%float = true
           ∧ (y <? x)%float = false)
        ∨ ((x <? y)%float = false ∧ (x =? y)%float = false
           ∧ (y <? x)%float = true))).
Proof.
  rewrite !ltb_spec, FloatAxioms.eqb_spec. unfold SFltb, SFeqb.
  rewrite (SFcompare_antisym (Prim2SF x) (Prim2SF y)).
  destruct (SFcompare (Prim2SF x) (Prim2SF y)) as [c|] eqn:Hc.
  - right.
    assert (Hx : x ≠ nan).
    { intros ->. by rewrite (proj2 (SFcompare_None _ _)) in Hc by (by left). }
    assert (Hy : y ≠ nan).
    { intros ->. by rewrite (proj2 (SFcompare_None _ _)) in Hc by (by right). }
    split; [done|]. split; [done|]. destruct c; simpl; auto.
  - left. apply SFcompare_None in Hc. rewrite !Prim2SF_nan in Hc. by simpl.
Qed.

(** ** Comparisons of scalars *)

Lemma float_bool_indicator (c : bool) :
  float_bool (if c then 1 else 0)%float = c.
Proof. by destruct c. Qed.

(** X4: The truth value of a comparison of scalars is the comparison of their
    data: [bool(a < b)] is [a.data < b.data], [bool(a > b)] is
    [b.data < a.data] and [bool(a == b)] is [a.data == b.data]. *)
Theorem comparison_truth_value (a b : Scalar) (st : Store) :
  ∃ r_lt r_gt r_eq st1 st2 st3,
    Scalar__lt__ a (AVar b) st = (Ok r_lt, st1)
    ∧ Scalar__gt__ a (AVar b) st = (Ok r_gt, st2)
    ∧ Scalar__eq__ a (AVar b) st = (Ok r_eq, st3)
    ∧ Scalar__bool__ r_lt = (data a <? data b)%float
    ∧ Scalar__bool__ r_gt = (data b <? data a)%float
    ∧ Scalar__bool__ r_eq = (data a =? data b)%float.
Proof.
  unfold Scalar__lt__, Scalar__gt__, Scalar__eq__.
  destruct (LT_apply_ok (AVar a) (AVar b) st) as (st1 & H1 & _).
  destruct (LT_apply_ok (AVar b) (AVar a) st) as (st2 & H2 & _).
  destruct (EQ_apply_ok (AVar a) (AVar b) st) as (st3 & H3 & _).
  eexists _, _, _, st1, st2, st3.
  split; [exact H1|]. split; [exact H2|]. split; [exact H3|].
  unfold Scalar__bool__, operators.lt, operators.eq. simpl.
  by rewrite !float_bool_indicator.
Qed.

(** X5: Of [a < b], [a == b] and [a > b], exactly one has data 1.0 and the
    others 0.0, unless the data of [a] or of [b] is the NaN: then all three
    have data 0.0. *)
Theorem comparison_trichotomy (a b : Scalar) (st : Store) :
  ∃ r_lt r_eq r_gt st1 st2 st3,
    Scalar__lt__ a (AVar b) st = (Ok r_lt, st1)
    ∧ Scalar__eq__ a (AVar b) st = (Ok r_eq, st2)
    ∧ Scalar__gt__ a (AVar b) st = (Ok r_gt, st3)
    ∧ (((data a = nan ∨ data b = nan)
        ∧ data r_lt = 0%float ∧ data r_eq = 0%float ∧ data r_gt = 0%float)
       ∨ (data a ≠ nan ∧ data b ≠ nan
          ∧ ((data r_lt = 1%float ∧ data r_eq = 0%float ∧ data r_gt = 0%float)
             ∨ (data r_lt = 0%float ∧ data r_eq = 1%float
                ∧ data r_gt = 0%float)
             ∨ (data r_lt = 0%float ∧ data r_eq = 0%float
                ∧ data r_gt = 1%float)))).
Proof.
  unfold Scalar__lt__, Scalar__gt__, Scalar__eq__.
  destruct (LT_apply_ok (AVar a) (AVar b) st) as (st1 & H1 & _).
  destruct (EQ_apply_ok (AVar a) (AVar b) st) as (st2 & H2 & _).
  destruct (LT_apply_ok (AVar b) (AVar a) st) as (st3 & H3 & _).
  eexists _, _, _, st1, st2, st3.
  split; [exact H1|]. split; [exact H2|]. split; [exact H3|].
  unfold operators.lt, operators.eq. simpl. unfold get_data.
  destruct (float_trichotomy (data a) (data b))
    as [(Hnan & -> & -> & ->) | (Ha & Hb & [(-> & -> & ->) | [(-> & -> & ->) | (-> & -> & ->)]])].
  - by left.
  - right. split; [done|]. split; [done|]. by left.
  - right. split; [done|]. split; [done|]. right. by left.
  - right. split; [done|]. split; [done|]. right. by right.
Qed.

(** X6: [a == b] and [b == a] have the same data; [a < a] has data 0.0; and
    [a == a] has data 1.0 unless the data of [a] is the NaN, when it is
    0.0. *)
Theorem equality_symmetric_and_reflexive_but_for_nan (a b : Scalar)
    (st st' : Store) :
  ∃ r_ab r_ba r_lt r_aa st1 st2 st3 st4,
    Scalar__eq__ a (AVar b) st = (Ok r_ab, st1)
    ∧ Scalar__eq__ b (AVar a) st' = (Ok r_ba, st2)
    ∧ Scalar__lt__ a (AVar a) st = (Ok r_lt, st3)
    ∧ Scalar__eq__ a (AVar a) st = (Ok r_aa, st4)
    ∧ data r_ab = data r_ba
    ∧ data r_lt = 0%float
    ∧ ((data a = nan ∧ data r_aa = 0%float)
       ∨ (data a ≠ nan ∧ data r_aa = 1%float)).
Proof.
  unfold Scalar__lt__, Scalar__eq__.
  destruct (EQ_apply_ok (AVar a) (AVar b) st) as (st1 & H1 & _).
  destruct (EQ_apply_ok (AVar b) (AVar a) st') as (st2 & H2 & _).
  destruct (LT_apply_ok (AVar a) (AVar a) st) as (st3 & H3 & _).
  destruct (EQ_apply_ok (AVar a) (AVar a) st) as (st4 & H4 & _).
  eexists _, _, _, _, st1, st2, st3, st4.
  split; [exact H1|]. split; [exact H2|]. split; [exact H3|].
  split; [exact H4|].
  unfold operators.lt, operators.eq. simpl. unfold get_data.
  split; [by rewrite (float_eqb_sym (data a) (data b))|].
  destruct (float_trichotomy (data a) (data a))
    as [(Hnan & -> & -> & _) | (Ha & _ & [(Hlt & _ & Hgt) | [(-> & -> & _) | (Hlt & _ & Hgt)]])].
  - split; [done|]. left. by destruct Hnan.
  - congruence.
  - split; [done|]. by right.
  - congruence.
Qed.

(** ** Negation *)

(** X7: Negating a scalar twice gives back its data, whatever it is (zeros,
    infinities and the NaN included). *)
Theorem double_negation_data (x : Scalar) (st : Store) :
  ∃ r st', double_neg x st = (Ok r, st') ∧ data r = data x.
Proof.
  unfold double_neg, Scalar__neg__.
  destruct (Neg_apply_ok (AVar x) st) as (st1 & H1 & _).
  rewrite (bind_ok _ _ _ _ _ H1).
  match goal with
  | |- context [Neg.apply [AVar ?n] st1] =>
      destruct (Neg_apply_ok (AVar n) st1) as (st2 & H2 & _)
  end.
  eexists _, st2. split; [exact H2|]. simpl. apply float_opp_involutive.
Qed.

(** ** Forward then backward *)

(** X8: For each of the ten scalar functions of the file: when [forward]
    accepts its inputs, [backward] on the context that [forward] left
    returns, and returns one gradient per input. *)
Theorem backward_after_forward (math_log math_exp : float -> float)
    (cls : ScalarFunction) (ctx0 ctx1 : Context) (inputs : list float)
    (out d_output : float) :
  cls ∈ scalar_functions math_log math_exp →
  forward cls ctx0 inputs = Ok (out, ctx1) →
  ∃ gs, backward cls ctx1 d_output = Ok gs ∧ length gs = length inputs.
Proof.
  unfold scalar_functions. intros Hcls Hfw.
  repeat (apply elem_of_cons in Hcls as [-> | Hcls]);
    [.. | by apply elem_of_nil in Hcls];
    simpl in Hfw;
    (destruct inputs as [|a [|b [|c inputs]]]; try discriminate Hfw);
    injection Hfw as <- <-; eexists; (split; [reflexivity|reflexivity]).
Qed.

Lemma backward_after_forward_witness :
  ∃ gs, backward Mul.cls (save_for_backward (mkContext false None)
                            [2%float; 3%float]) 1%float = Ok gs
        ∧ length gs = length [2%float; 3%float].
Proof.
  apply (backward_after_forward (fun x => x) (fun x => x) Mul.cls
           (mkContext false None) _ [2%float; 3%float] 6%float 1%float).
  - unfold scalar_functions. set_solver.
  - reflexivity.
Defined.

(** ** Central difference: positions, order of evaluation, exceptions *)

Lemma perturb_out_of_range (g : float -> float) (arg : Z) (vals : list float) :
  (arg < 0 ∨ Z.of_nat (length vals) ≤ arg)%Z → perturb g arg vals = vals.
Proof.
  intros Hout. apply list_eq. intros j. rewrite perturb_lookup.
  case_decide as Hj; [|done].
  destruct Hout as [Hneg | Hge]; [lia|].
  rewrite (lookup_ge_None_2 vals j) by lia. done.
Qed.

(** On floats, with a function that may change the store and raise: the
    two lists are built without effect, then [f] is called on the plus
    values, then on the minus values, then the quotient is taken. *)
Lemma central_difference_float_unfold (f : list float -> M float)
    (vals : list float) (arg : option Z) (epsilon : option float) (st : Store) :
  central_difference f vals arg epsilon st =
    (fp ← f (perturb (fun v => v + default default_epsilon epsilon)%float
               (default default_arg arg) vals);
     fm ← f (perturb (fun v => v - default default_epsilon epsilon)%float
               (default default_arg arg) vals);
     lift (float_truediv (fp - fm)
             (2 * default default_epsilon epsilon)%float)) st.
Proof.
  unfold central_difference. simpl.
  rewrite (bind_ok _ _ _ _ _
             (shifted_vals_float PrimFloat.sub (default default_arg arg)
                (default default_epsilon epsilon) vals 0 st)).
  rewrite (bind_ok _ _ _ _ _
             (shifted_vals_float PrimFloat.add (default default_arg arg)
                (default default_epsilon epsilon) vals 0 st)).
  replace (default default_arg arg - Z.of_nat 0)%Z with (default default_arg arg)
    by lia.
  unfold mbind, M_bind, bind, mret, M_ret, ret.
  destruct (f _ st) as [[fp|e] st1]; [|done].
  by destruct (f _ st1) as [[fm|e] st2].
Qed.

(** X1: When [arg] is no position of [vals] (negative, or the length of [vals]
    or more), no value is perturbed: [f] is called twice on [vals]
    themselves.  A negative [arg] does not count from the end. *)
Theorem central_difference_arg_out_of_range (f : list float -> M float)
    (vals : list float) (arg : Z) (epsilon : option float) (st : Store) :
  (arg < 0 ∨ Z.of_nat (length vals) ≤ arg)%Z →
  central_difference f vals (Some arg) epsilon st =
    (fp ← f vals; fm ← f vals;
     lift (float_truediv (fp - fm)
             (2 * default default_epsilon epsilon)%float)) st.
Proof.
  intros Hout. rewrite central_difference_float_unfold. simpl.
  by rewrite !perturb_out_of_range.
Qed.

Lemma central_difference_arg_out_of_range_witness :
  central_difference (fun l : list float => mret (hd 0%float l))
    [1%float; 2%float] (Some (-1)%Z) None Store_init =
    (fp ← mret (hd 0%float [1%float; 2%float]);
     fm ← mret (hd 0%float [1%float; 2%float]);
     lift (float_truediv (fp - fm)
             (2 * default default_epsilon None)%float)) Store_init.
Proof.
  apply (central_difference_arg_out_of_range
           (fun l : list float => mret (hd 0%float l))
           [1%float; 2%float] (-1)%Z None Store_init).
  left. lia.
Defined.

(** X2: On floats, [f] is called on the plus values first and, if that call
    returns, on the minus values in the store it left; what either call
    raises is what [central_difference] raises, and after a failure on the
    plus values [f] is not called again; when both return, the result is
    the quotient of their difference by [2 * epsilon]. *)
Theorem central_difference_calls_in_order (f : list float -> M float)
    (vals : list float) (arg : option Z) (epsilon : option float) (st : Store) :
  let e := default default_epsilon epsilon in
  let plus := perturb (fun v => v + e)%float (default default_arg arg) vals in
  let minus := perturb (fun v => v - e)%float (default default_arg arg) vals in
  match f plus st with
  | (Raise err, st1) =>
      central_difference f vals arg epsilon st = (Raise err, st1)
  | (Ok fp, st1) =>
      match f minus st1 with
      | (Raise err, st2) =>
          central_difference f vals arg epsilon st = (Raise err, st2)
      | (Ok fm, st2) =>
          central_difference f vals arg epsilon st =
            (float_truediv (fp - fm) (2 * e), st2)
      end
  end.
Proof.
  intros e plus minus. rewrite central_difference_float_unfold.
  fold e plus minus. unfold mbind, M_bind, bind, lift.
  destruct (f plus st) as [[fp|err] st1]; [|done].
  by destruct (f minus st1) as [[fm|err] st2].
Qed.

(** X3: On scalars, with a nonzero [2 * epsilon], [central_difference] raises
    nothing of its own: an exception it raises was raised by [f] on some
    values. *)
Theorem central_difference_scalars_raise_from_f (f : list Scalar -> M Scalar)
    (vals : list Scalar) (arg : option Z) (epsilon : option float)
    (st st' : Store) (e : exception) :
  (2 * default default_epsilon epsilon =? 0)%float = false →
  central_difference f vals arg epsilon st = (Raise e, st') →
  ∃ l s, (f l s).1 = Raise e.
Proof. intros _. apply central_difference_raise. Qed.

Lemma central_difference_scalars_raise_from_f_witness :
  ∃ l s, (failing l s).1 = Raise ValueError.
Proof.
  eapply (central_difference_scalars_raise_from_f failing [x_two] None None
            st_one _ ValueError).
  - reflexivity.
  - vm_compute. reflexivity.
Defined.

(** ** Gradients of the operators of [Scalar] *)

Lemma requires_grad__ok (x : Scalar) (val : bool) (st : Store) :
  requires_grad_ x val st = (Ok tt, set_requires_grad (unique_id x) val st).
Proof. reflexivity. Qed.

Lemma apply_tracked (cls : ScalarFunction) (vals : list (Arg Scalar))
    (st : Store) (c : float) (ctx1 : Context) :
  needs_grad st vals = true →
  forward cls (mkContext false None) (map raw_value vals) = Ok (c, ctx1) →
  apply cls vals st =
    (Ok (mkScalar (S (variable_count st)) c
           (Some (mkHistory (Some cls) (Some ctx1) vals)) None),
     set_requires_grad (S (variable_count st)) true (allocate st)).
Proof.
  intros Hng Hfw. rewrite (apply_ok cls vals st c ctx1); rewrite Hng; done.
Qed.

Lemma requires_grad_after_apply (st : Store) (x : Scalar) :
  unique_id x ≠ S (variable_count st) →
  requires_grad (set_requires_grad (S (variable_count st)) true (allocate st)) x
  = requires_grad st x.
Proof.
  intros Hne. rewrite requires_grad_set, requires_grad_allocate.
  by rewrite (bool_decide_eq_false_2 (_ = _)) by done.
Qed.

Lemma derivative_set_derivative (uid : nat) (g : float) (st : Store) (x : Scalar) :
  derivative (set_derivative uid (Some g) st) x =
    if decide (unique_id x = uid) then Some g else derivative st x.
Proof.
  unfold derivative. simpl. case_decide as H.
  - rewrite H. apply lookup_insert_eq.
  - by apply lookup_insert_ne.
Qed.

Lemma visit_unary (v x : Scalar) (fn : option ScalarFunction)
    (c : option Context) (acc : gset nat * list Scalar) :
  history v = Some (mkHistory fn c [AVar x]) →
  unique_id v ∉ acc.1 →
  visit v acc = ({[unique_id v]} ∪ (visit x acc).1, v :: (visit x acc).2).
Proof.
  destruct v as [uid d h n]. simpl. intros -> Hnin.
  by rewrite decide_False by done.
Qed.

(** Two leaves made to request gradients, in any store. *)
Lemma two_leaves_ok (v w : float) (st : Store) :
  ∃ st2,
    two_leaves v w st =
      (Ok (mkScalar (S (variable_count st)) v (Some History_empty) None,
           mkScalar (S (S (variable_count st))) w (Some History_empty) None),
       st2)
    ∧ variable_count st2 = S (S (variable_count st))
    ∧ (∀ x, unique_id x = S (variable_count st) → requires_grad st2 x = true)
    ∧ (∀ x, unique_id x = S (S (variable_count st)) →
            requires_grad st2 x = true).
Proof.
  exists (set_requires_grad (S (S (variable_count st))) true
            (set_requires_grad (S (variable_count st)) true
               (allocate (allocate st)))).
  split; [reflexivity|]. split; [reflexivity|]. split.
  - intros x Hx. rewrite !requires_grad_set, Hx.
    rewrite (bool_decide_eq_true_2
               (S (variable_count st) = S (variable_count st))) by done.
    by rewrite orb_true_r.
  - intros x Hx. rewrite requires_grad_set, Hx.
    by rewrite (bool_decide_eq_true_2
                  (S (S (variable_count st)) = S (S (variable_count st))))
      by done.
Qed.


(** Backward from an application to two distinct leaves. *)
Lemma backward_binary_leaves (c x y : Scalar) (fn : ScalarFunction)
    (ctxc : Context) (d_output : option float) (gx gy : float) (st : Store) :
  history c = Some (mkHistory (Some fn) (Some ctxc) [AVar x; AVar y]) →
  history x = Some History_empty →
  history y = Some History_empty →
  unique_id x ≠ unique_id y →
  unique_id c ≠ unique_id x →
  unique_id c ≠ unique_id y →
  backward fn ctxc (default 1%float d_output) = Ok [gx; gy] →
  requires_grad st x = true →
  requires_grad st y = true →
  Variable_backward c d_output st =
    (Ok tt, set_derivative (unique_id x) (Some gx)
              (set_derivative (unique_id y) (Some gy) st)).
Proof.
  intros Hc Hx Hy Hxy Hcx Hcy Hback Hrx Hry.
  assert (Horder : topological_order c = [c; y; x]).
  { unfold topological_order.
    rewrite (visit_binary c x y (Some fn) (Some ctxc)); [ | done | set_solver ].
    rewrite (visit_leaf x (∅, [])); [ | by left | set_solver ].
    rewrite (visit_leaf y); [ | by left | simpl; set_solver ].
    reflexivity. }
  unfold Variable_backward. rewrite Horder. cbn [visit_all].
  erewrite (bind_ok (visit_variable c _)); last first.
  { eapply visit_variable_interior;
      [exact Hc | apply lookup_singleton_eq | exact Hback]. }
  cbn [route].
  erewrite (bind_ok (visit_variable y _)); last first.
  { eapply visit_variable_leaf; [by left|].
    rewrite add_grad_lookup, add_grad_lookup_ne by done.
    by rewrite lookup_singleton_ne by done. }
  rewrite Hry.
  erewrite (bind_ok (visit_variable x _)); last first.
  { eapply visit_variable_leaf; [by left|].
    rewrite add_grad_lookup_ne by done. rewrite add_grad_lookup.
    by rewrite lookup_singleton_ne by done. }
  by rewrite requires_grad_set_derivative, Hrx.
Qed.

(** Backward from an application to the same leaf twice. *)
Lemma backward_binary_same_leaf (c x : Scalar) (fn : ScalarFunction)
    (ctxc : Context) (d_output : option float) (g1 g2 : float) (st : Store) :
  history c = Some (mkHistory (Some fn) (Some ctxc) [AVar x; AVar x]) →
  history x = Some History_empty →
  unique_id c ≠ unique_id x →
  backward fn ctxc (default 1%float d_output) = Ok [g1; g2] →
  requires_grad st x = true →
  Variable_backward c d_output st =
    (Ok tt, set_derivative (unique_id x) (Some (g1 + g2)%float) st).
Proof.
  intros Hc Hx Hcx Hback Hrx.
  assert (Horder : topological_order c = [c; x]).
  { unfold topological_order.
    rewrite (visit_binary c x x (Some fn) (Some ctxc)); [ | done | set_solver ].
    rewrite (visit_leaf x (∅, [])); [ | by left | set_solver ].
    rewrite (visit_seen x); [ | simpl; set_solver ].
    reflexivity. }
  unfold Variable_backward. rewrite Horder. cbn [visit_all].
  erewrite (bind_ok (visit_variable c _)); last first.
  { eapply visit_variable_interior;
      [exact Hc | apply lookup_singleton_eq | exact Hback]. }
  cbn [route].
  erewrite (bind_ok (visit_variable x _)); last first.
  { eapply visit_variable_leaf; [by left|].
    rewrite !add_grad_lookup. by rewrite lookup_singleton_ne by done. }
  by rewrite Hrx.
Qed.

(** Backward from a binary application to a leaf and to a unary
    application to another leaf. *)
Lemma backward_binary_of_unary (c u x y : Scalar) (bfn ufn : ScalarFunction)
    (ctxc ctxu : Context) (d_output : option float) (gx gu gy : float)
    (st : Store) :
  history c = Some (mkHistory (Some bfn) (Some ctxc) [AVar x; AVar u]) →
  history u = Some (mkHistory (Some ufn) (Some ctxu) [AVar y]) →
  history x = Some History_empty →
  history y = Some History_empty →
  unique_id x ≠ unique_id y →
  unique_id u ≠ unique_id x → unique_id u ≠ unique_id y →
  unique_id c ≠ unique_id x → unique_id c ≠ unique_id y →
  unique_id c ≠ unique_id u →
  backward bfn ctxc (default 1%float d_output) = Ok [gx; gu] →
  backward ufn ctxu gu = Ok [gy] →
  requires_grad st x = true →
  requires_grad st y = true →
  Variable_backward c d_output st =
    (Ok tt, set_derivative (unique_id x) (Some gx)
              (set_derivative (unique_id y) (Some gy) st)).
Proof.
  intros Hc Hu Hx Hy Hxy Hux Huy Hcx Hcy Hcu Hbc Hbu Hrx Hry.
  assert (Horder : topological_order c = [c; u; y; x]).
  { unfold topological_order.
    rewrite (visit_binary c x u (Some bfn) (Some ctxc)); [ | done | set_solver ].
    rewrite (visit_leaf x (∅, [])); [ | by left | set_solver ].
    rewrite (visit_unary u y (Some ufn) (Some ctxu)); [ | done | simpl; set_solver ].
    rewrite (visit_leaf y); [ | by left | simpl; set_solver ].
    reflexivity. }
  unfold Variable_backward. rewrite Horder. cbn [visit_all].
  erewrite (bind_ok (visit_variable c _)); last first.
  { eapply visit_variable_interior;
      [exact Hc | apply lookup_singleton_eq | exact Hbc]. }
  cbn [route].
  erewrite (bind_ok (visit_variable u _)); last first.
  { eapply visit_variable_interior; [exact Hu | | exact Hbu].
    rewrite add_grad_lookup, add_grad_lookup_ne by done.
    by rewrite lookup_singleton_ne by done. }
  cbn [route].
  erewrite (bind_ok (visit_variable y _)); last first.
  { eapply visit_variable_leaf; [by left|].
    rewrite add_grad_lookup, !add_grad_lookup_ne by done.
    by rewrite lookup_singleton_ne by done. }
  rewrite Hry.
  erewrite (bind_ok (visit_variable x _)); last first.
  { eapply visit_variable_leaf; [by left|].
    rewrite !add_grad_lookup_ne by done. rewrite add_grad_lookup.
    by rewrite lookup_singleton_ne by done. }
  by rewrite requires_grad_set_derivative, Hrx.
Qed.

(** The program [binary_backward] for an operator that is one application
    to its two operands, in the order [first, second]. *)
Lemma binary_backward_one_application (op : Scalar -> Arg Scalar -> M Scalar)
    (cls : ScalarFunction) (v w out gx gy : float) (ctx1 : Context)
    (d_output : option float) (st : Store) :
  (∀ x y, op x (AVar y) = apply cls [AVar x; AVar y]) →
  forward cls (mkContext false None) [v; w] = Ok (out, ctx1) →
  backward cls ctx1 (default 1%float d_output) = Ok [gx; gy] →
  ∃ x y c st',
    binary_backward op v w d_output st = (Ok (x, y, c), st')
    ∧ data x = v ∧ data y = w ∧ data c = out
    ∧ derivative st' x = Some gx
    ∧ derivative st' y = Some gy.
Proof.
  intros Hop Hfw Hbw. unfold binary_backward.
  destruct (two_leaves_ok v w st) as (st2 & Htl & Hn2 & Hrx & Hry).
  rewrite (bind_ok _ _ _ _ _ Htl). cbv beta iota.
  set (n := variable_count st) in *.
  set (x := mkScalar (S n) v (Some History_empty) None) in *.
  set (y := mkScalar (S (S n)) w (Some History_empty) None) in *.
  rewrite Hop.
  assert (Hap := apply_tracked cls [AVar x; AVar y] st2 out ctx1).
  rewrite Hn2 in Hap.
  rewrite (bind_ok _ _ _ _ _ (Hap ltac:(simpl; by rewrite (Hrx x eq_refl)) Hfw)).
  clear Hap.
  set (c := mkScalar (S (S (S n))) out
              (Some (mkHistory (Some cls) (Some ctx1) [AVar x; AVar y])) None).
  set (st3 := set_requires_grad (S (S (S n))) true (allocate st2)).
  assert (Hr3 : ∀ z, unique_id z ≠ S (S (S n)) →
                     requires_grad st3 z = requires_grad st2 z).
  { intros z Hz. unfold st3. rewrite <- Hn2 in *.
    by apply requires_grad_after_apply. }
  rewrite (bind_ok _ _ _ _ _
             (backward_binary_leaves c x y cls ctx1 d_output gx gy st3
                eq_refl eq_refl eq_refl
                ltac:(simpl; lia) ltac:(simpl; lia) ltac:(simpl; lia) Hbw
                ltac:(rewrite Hr3 by (simpl; lia); by apply Hrx)
                ltac:(rewrite Hr3 by (simpl; lia); by apply Hry))).
  exists x, y, c. eexists. split; [reflexivity|].
  split; [done|]. split; [done|]. split; [done|].
  rewrite !derivative_set_derivative. simpl. split.
  - by rewrite decide_True.
  - rewrite decide_False by lia. by rewrite decide_True.
Qed.

(** The same with the operands of the application swapped. *)
Lemma binary_backward_swapped_application (op : Scalar -> Arg Scalar -> M Scalar)
    (cls : ScalarFunction) (v w out gx gy : float) (ctx1 : Context)
    (d_output : option float) (st : Store) :
  (∀ x y, op x (AVar y) = apply cls [AVar y; AVar x]) →
  forward cls (mkContext false None) [w; v] = Ok (out, ctx1) →
  backward cls ctx1 (default 1%float d_output) = Ok [gy; gx] →
  ∃ x y c st',
    binary_backward op v w d_output st = (Ok (x, y, c), st')
    ∧ data x = v ∧ data y = w ∧ data c = out
    ∧ derivative st' x = Some gx
    ∧ derivative st' y = Some gy.
Proof.
  intros Hop Hfw Hbw. unfold binary_backward.
  destruct (two_leaves_ok v w st) as (st2 & Htl & Hn2 & Hrx & Hry).
  rewrite (bind_ok _ _ _ _ _ Htl). cbv beta iota.
  set (n := variable_count st) in *.
  set (x := mkScalar (S n) v (Some History_empty) None) in *.
  set (y := mkScalar (S (S n)) w (Some History_empty) None) in *.
  rewrite Hop.
  assert (Hap := apply_tracked cls [AVar y; AVar x] st2 out ctx1).
  rewrite Hn2 in Hap.
  rewrite (bind_ok _ _ _ _ _ (Hap ltac:(simpl; by rewrite (Hry y eq_refl)) Hfw)).
  clear Hap.
  set (c := mkScalar (S (S (S n))) out
              (Some (mkHistory (Some cls) (Some ctx1) [AVar y; AVar x])) None).
  set (st3 := set_requires_grad (S (S (S n))) true (allocate st2)).
  assert (Hr3 : ∀ z, unique_id z ≠ S (S (S n)) →
                     requires_grad st3 z = requires_grad st2 z).
  { intros z Hz. unfold st3. rewrite <- Hn2 in *.
    by apply requires_grad_after_apply. }
  rewrite (bind_ok _ _ _ _ _
             (backward_binary_leaves c y x cls ctx1 d_output gy gx st3
                eq_refl eq_refl eq_refl
                ltac:(simpl; lia) ltac:(simpl; lia) ltac:(simpl; lia) Hbw
                ltac:(rewrite Hr3 by (simpl; lia); by apply Hry)
                ltac:(rewrite Hr3 by (simpl; lia); by apply Hrx))).
  exists x, y, c. eexists. split; [reflexivity|].
  split; [done|]. split; [done|]. split; [done|].
  rewrite !derivative_set_derivative. simpl. split.
  - rewrite decide_False by lia. by rewrite decide_True.
  - by rewrite decide_True.
Qed.

(** The program [binary_backward] for an operator that applies a unary
    function to its second operand and a binary one to the first operand
    and the result. *)
Lemma binary_backward_two_applications (op : Scalar -> Arg Scalar -> M Scalar)
    (ucls bcls : ScalarFunction) (v w uout out gx gu gy : float)
    (ctxu ctxc : Context) (d_output : option float) (st : Store) :
  (∀ x y, op x (AVar y) =
          (u ← apply ucls [AVar y]; apply bcls [AVar x; AVar u])) →
  forward ucls (mkContext false None) [w] = Ok (uout, ctxu) →
  forward bcls (mkContext false None) [v; uout] = Ok (out, ctxc) →
  backward bcls ctxc (default 1%float d_output) = Ok [gx; gu] →
  backward ucls ctxu gu = Ok [gy] →
  ∃ x y c st',
    binary_backward op v w d_output st = (Ok (x, y, c), st')
    ∧ data x = v ∧ data y = w ∧ data c = out
    ∧ derivative st' x = Some gx
    ∧ derivative st' y = Some gy.
Proof.
  intros Hop Hfu Hfb Hbb Hbu. unfold binary_backward.
  destruct (two_leaves_ok v w st) as (st2 & Htl & Hn2 & Hrx & Hry).
  rewrite (bind_ok _ _ _ _ _ Htl). cbv beta iota.
  set (n := variable_count st) in *.
  set (x := mkScalar (S n) v (Some History_empty) None) in *.
  set (y := mkScalar (S (S n)) w (Some History_empty) None) in *.
  rewrite Hop.
  assert (Hau := apply_tracked ucls [AVar y] st2 uout ctxu).
  rewrite Hn2 in Hau.
  specialize (Hau ltac:(simpl; by rewrite (Hry y eq_refl)) Hfu).
  set (u := mkScalar (S (S (S n))) uout
              (Some (mkHistory (Some ucls) (Some ctxu) [AVar y])) None) in *.
  set (st3 := set_requires_grad (S (S (S n))) true (allocate st2)) in *.
  assert (Hr3 : ∀ z, unique_id z ≠ S (S (S n)) →
                     requires_grad st3 z = requires_grad st2 z).
  { intros z Hz. unfold st3. rewrite <- Hn2 in *.
    by apply requires_grad_after_apply. }
  assert (Hn3 : variable_count st3 = S (S (S n))) by (unfold st3; simpl; lia).
  assert (Hab := apply_tracked bcls [AVar x; AVar u] st3 out ctxc).
  rewrite Hn3 in Hab.
  specialize (Hab ltac:(simpl; rewrite Hr3 by (simpl; lia);
                        by rewrite (Hrx x eq_refl)) Hfb).
  set (c := mkScalar (S (S (S (S n)))) out
              (Some (mkHistory (Some bcls) (Some ctxc) [AVar x; AVar u])) None)
    in *.
  set (st4 := set_requires_grad (S (S (S (S n)))) true (allocate st3)) in *.
  assert (Hr4 : ∀ z, unique_id z ≠ S (S (S (S n))) →
                     requires_grad st4 z = requires_grad st3 z).
  { intros z Hz. unfold st4. rewrite <- Hn3 in *.
    by apply requires_grad_after_apply. }
  assert (Hop2 : (u0 ← apply ucls [AVar y]; apply bcls [AVar x; AVar u0]) st2
                 = (Ok c, st4)).
  { rewrite (bind_ok _ _ _ _ _ Hau). exact Hab. }
  rewrite (bind_ok _ _ _ _ _ Hop2).
  rewrite (bind_ok _ _ _ _ _
             (backward_binary_of_unary c u x y bcls ucls ctxc ctxu d_output
                gx gu gy st4 eq_refl eq_refl eq_refl eq_refl
                ltac:(simpl; lia) ltac:(simpl; lia) ltac:(simpl; lia)
                ltac:(simpl; lia) ltac:(simpl; lia) ltac:(simpl; lia)
                Hbb Hbu
                ltac:(rewrite Hr4, Hr3 by (simpl; lia); by apply Hrx)
                ltac:(rewrite Hr4, Hr3 by (simpl; lia); by apply Hry))).
  exists x, y, c. eexists. split; [reflexivity|].
  split; [done|]. split; [done|]. split; [done|].
  rewrite !derivative_set_derivative. simpl. split.
  - by rewrite decide_True.
  - rewrite decide_False by lia. by rewrite decide_True.
Qed.

(** The program [self_backward] for an operator that is one application to
    its two operands. *)
Lemma self_backward_one_application (op : Scalar -> Arg Scalar -> M Scalar)
    (cls : ScalarFunction) (v out g1 g2 : float) (ctx1 : Context)
    (d_output : option float) (st : Store) :
  (∀ x y, op x (AVar y) = apply cls [AVar x; AVar y]) →
  forward cls (mkContext false None) [v; v] = Ok (out, ctx1) →
  backward cls ctx1 (default 1%float d_output) = Ok [g1; g2] →
  ∃ x c st',
    self_backward op v d_output st = (Ok (x, c), st')
    ∧ data x = v ∧ data c = out
    ∧ derivative st' x = Some (g1 + g2)%float.
Proof.
  intros Hop Hfw Hbw. unfold self_backward.
  rewrite (bind_ok _ _ _ _ _ (Scalar_new_ok v st)).
  set (n := variable_count st).
  set (x := mkScalar (S n) v (Some History_empty) None).
  rewrite (bind_ok _ _ _ _ _ (requires_grad__ok x true (allocate st))).
  set (st2 := set_requires_grad (unique_id x) true (allocate st)).
  assert (Hrx : requires_grad st2 x = true).
  { unfold st2. rewrite requires_grad_set.
    by rewrite (bool_decide_eq_true_2 (unique_id x = unique_id x)) by done. }
  rewrite Hop.
  assert (Hap := apply_tracked cls [AVar x; AVar x] st2 out ctx1).
  change (variable_count st2) with (S n) in Hap.
  rewrite (bind_ok _ _ _ _ _ (Hap ltac:(simpl; by rewrite Hrx) Hfw)).
  clear Hap.
  set (c := mkScalar (S (S n)) out
              (Some (mkHistory (Some cls) (Some ctx1) [AVar x; AVar x])) None).
  set (st3 := set_requires_grad (S (S n)) true (allocate st2)).
  assert (Hr3 : requires_grad st3 x = true).
  { unfold st3. change (S (S n)) with (S (variable_count st2)).
    rewrite requires_grad_after_apply; [done | simpl; lia]. }
  rewrite (bind_ok _ _ _ _ _
             (backward_binary_same_leaf c x cls ctx1 d_output g1 g2 st3
                eq_refl eq_refl ltac:(simpl; lia) Hbw Hr3)).
  exists x, c. eexists. split; [reflexivity|].
  split; [done|]. split; [done|].
  rewrite derivative_set_derivative. by rewrite decide_True.
Qed.

(** X9: Subtraction: with two leaves [x] and [y] that request gradients,
    [c = x - y] has data [x.data + neg(y.data)], and [c.backward(d)] gives
    [x] the derivative [d] and [y] the derivative [neg_back(d)] ([d] is 1.0
    by default): the gradient that [Add] hands to its second input passes
    through the backward function of [Neg]. *)
Theorem subtraction_gradient (v w : float) (d_output : option float)
    (st : Store) :
  ∃ x y c st',
    binary_backward Scalar__sub__ v w d_output st = (Ok (x, y, c), st')
    ∧ data x = v ∧ data y = w ∧ data c = (v + operators.neg w)%float
    ∧ derivative st' x = Some (default 1%float d_output)
    ∧ derivative st' y = Some (operators.neg_back (default 1%float d_output)).
Proof.
  by apply (binary_backward_two_applications Scalar__sub__ Neg.cls Add.cls
              v w (operators.neg w) (v + operators.neg w)%float
              (default 1%float d_output) (default 1%float d_output)
              (operators.neg_back (default 1%float d_output))
              (mkContext false None) (mkContext false None)).
Qed.

(** X10: Division: with two leaves [x] and [y] that request gradients,
    [c = x / y] has data [mul(x.data, inv(y.data))], and [c.backward(d)]
    gives [x] the first component of [mul_back(x.data, inv(y.data), d)]
    and [y] the value of [inv_back] at [y.data] and the second component:
    the gradient that [Mul] hands to its second input passes through the
    backward function of [Inv], which works on the value saved by the
    forward function of [Inv]. *)
Theorem division_gradient (v w : float) (d_output : option float) (st : Store) :
  let d := default 1%float d_output in
  ∃ x y c st',
    binary_backward Scalar__truediv__ v w d_output st = (Ok (x, y, c), st')
    ∧ data x = v ∧ data y = w
    ∧ data c = operators.mul v (operators.inv w)
    ∧ derivative st' x = Some (operators.mul_back v (operators.inv w) d).1
    ∧ derivative st' y =
        Some (operators.inv_back w
                (operators.mul_back v (operators.inv w) d).2).
Proof.
  intros d.
  by apply (binary_backward_two_applications Scalar__truediv__ Inv.cls Mul.cls
              v w (operators.inv w) (operators.mul v (operators.inv w))
              (operators.mul_back v (operators.inv w) d).1
              (operators.mul_back v (operators.inv w) d).2
              (operators.inv_back w
                 (operators.mul_back v (operators.inv w) d).2)
              (mkContext false (Some [w]))
              (mkContext false (Some [v; operators.inv w]))).
Qed.

(** X11: Product and sum: with two leaves [x] and [y] that request gradients,
    [(x * y).backward(d)] gives [x] the derivative [y.data * d] and [y] the
    derivative [x.data * d]; [(x + y).backward(d)] gives both [d]. *)
Theorem product_and_sum_gradient (v w : float) (d_output : option float)
    (st : Store) :
  (∃ x y c st',
      binary_backward Scalar__mul__ v w d_output st = (Ok (x, y, c), st')
      ∧ data x = v ∧ data y = w ∧ data c = (v * w)%float
      ∧ derivative st' x = Some (w * default 1%float d_output)%float
      ∧ derivative st' y = Some (v * default 1%float d_output)%float)
  ∧ (∃ x y c st',
      binary_backward Scalar__add__ v w d_output st = (Ok (x, y, c), st')
      ∧ data x = v ∧ data y = w ∧ data c = (v + w)%float
      ∧ derivative st' x = Some (default 1%float d_output)
      ∧ derivative st' y = Some (default 1%float d_output)).
Proof.
  split.
  - by apply (binary_backward_one_application Scalar__mul__ Mul.cls v w
                (v * w)%float (w * default 1%float d_output)%float
                (v * default 1%float d_output)%float
                (mkContext false (Some [v; w]))).
  - by apply (binary_backward_one_application Scalar__add__ Add.cls v w
                (v + w)%float (default 1%float d_output)
                (default 1%float d_output) (mkContext false None)).
Qed.

(** X12: A scalar used as both operands receives both gradients, added up:
    [(x * x).backward(d)] gives [x] the derivative
    [x.data * d + x.data * d], and [(x + x).backward(d)] gives it
    [d + d]. *)
Theorem repeated_operand_gradient (v : float) (d_output : option float)
    (st : Store) :
  (∃ x c st',
      self_backward Scalar__mul__ v d_output st = (Ok (x, c), st')
      ∧ data x = v ∧ data c = (v * v)%float
      ∧ derivative st' x =
          Some (v * default 1%float d_output
                + v * default 1%float d_output)%float)
  ∧ (∃ x c st',
      self_backward Scalar__add__ v d_output st = (Ok (x, c), st')
      ∧ data x = v ∧ data c = (v + v)%float
      ∧ derivative st' x =
          Some (default 1%float d_output + default 1%float d_output)%float).
Proof.
  split.
  - by apply (self_backward_one_application Scalar__mul__ Mul.cls v
                (v * v)%float (v * default 1%float d_output)%float
                (v * default 1%float d_output)%float
                (mkContext false (Some [v; v]))).
  - by apply (self_backward_one_application Scalar__add__ Add.cls v
                (v + v)%float (default 1%float d_output)
                (default 1%float d_output) (mkContext false None)).
Qed.

(** X13: Comparisons stop the gradient: after [(x < y).backward(d)],
    [(x > y).backward(d)] or [(x == y).backward(d)] on two leaves that
    request gradients, the derivatives of [x] and [y] are set, and are 0.0,
    whatever [d] and the data are. *)
Theorem comparison_gradient_is_zero (v w : float) (d_output : option float)
    (st : Store) :
  (∃ x y c st',
      binary_backward Scalar__lt__ v w d_output st = (Ok (x, y, c), st')
      ∧ data x = v ∧ data y = w ∧ data c = operators.lt v w
      ∧ derivative st' x = Some 0%float ∧ derivative st' y = Some 0%float)
  ∧ (∃ x y c st',
      binary_backward Scalar__gt__ v w d_output st = (Ok (x, y, c), st')
      ∧ data x = v ∧ data y = w ∧ data c = operators.lt w v
      ∧ derivative st' x = Some 0%float ∧ derivative st' y = Some 0%float)
  ∧ (∃ x y c st',
      binary_backward Scalar__eq__ v w d_output st = (Ok (x, y, c), st')
      ∧ data x = v ∧ data y = w ∧ data c = operators.eq v w
      ∧ derivative st' x = Some 0%float ∧ derivative st' y = Some 0%float).
Proof.
  split; [|split].
  - by apply (binary_backward_one_application Scalar__lt__ LT.cls v w
                (operators.lt v w) 0%float 0%float (mkContext false None)).
  - by apply (binary_backward_swapped_application Scalar__gt__ LT.cls v w
                (operators.lt w v) 0%float 0%float (mkContext false None)).
  - by apply (binary_backward_one_application Scalar__eq__ EQ.cls v w
                (operators.eq v w) 0%float 0%float (mkContext false None)).
Qed.

(** Backward from a unary application to a leaf. *)
Lemma backward_unary_leaf (c x : Scalar) (fn : ScalarFunction)
    (ctxc : Context) (d_output : option float) (g : float) (st : Store) :
  history c = Some (mkHistory (Some fn) (Some ctxc) [AVar x]) →
  history x = Some History_empty →
  unique_id c ≠ unique_id x →
  backward fn ctxc (default 1%float d_output) = Ok [g] →
  requires_grad st x = true →
  Variable_backward c d_output st =
    (Ok tt, set_derivative (unique_id x) (Some g) st).
Proof.
  intros Hc Hx Hcx Hback Hrx.
  assert (Horder : topological_order c = [c; x]).
  { unfold topological_order.
    rewrite (visit_unary c x (Some fn) (Some ctxc)); [ | done | set_solver ].
    rewrite (visit_leaf x (∅, [])); [ | by left | set_solver ].
    reflexivity. }
  unfold Variable_backward. rewrite Horder. cbn [visit_all].
  erewrite (bind_ok (visit_variable c _)); last first.
  { eapply visit_variable_interior;
      [exact Hc | apply lookup_singleton_eq | exact Hback]. }
  cbn [route].
  erewrite (bind_ok (visit_variable x _)); last first.
  { eapply visit_variable_leaf; [by left|].
    rewrite add_grad_lookup. by rewrite lookup_singleton_ne by done. }
  by rewrite Hrx.
Qed.

(** The program [unary_backward] for an operator that is one
    application. *)
Lemma unary_backward_one_application (op : Scalar -> M Scalar)
    (cls : ScalarFunction) (v out g : float) (ctx1 : Context)
    (d_output : option float) (st : Store) :
  (∀ x, op x = apply cls [AVar x]) →
  forward cls (mkContext false None) [v] = Ok (out, ctx1) →
  backward cls ctx1 (default 1%float d_output) = Ok [g] →
  ∃ x c st',
    unary_backward op v d_output st = (Ok (x, c), st')
    ∧ data x = v ∧ data c = out
    ∧ derivative st' x = Some g.
Proof.
  intros Hop Hfw Hbw. unfold unary_backward.
  rewrite (bind_ok _ _ _ _ _ (Scalar_new_ok v st)).
  set (n := variable_count st).
  set (x := mkScalar (S n) v (Some History_empty) None).
  rewrite (bind_ok _ _ _ _ _ (requires_grad__ok x true (allocate st))).
  set (st2 := set_requires_grad (unique_id x) true (allocate st)).
  assert (Hrx : requires_grad st2 x = true).
  { unfold st2. rewrite requires_grad_set.
    by rewrite (bool_decide_eq_true_2 (unique_id x = unique_id x)) by done. }
  rewrite Hop.
  assert (Hap := apply_tracked cls [AVar x] st2 out ctx1).
  change (variable_count st2) with (S n) in Hap.
  rewrite (bind_ok _ _ _ _ _ (Hap ltac:(simpl; by rewrite Hrx) Hfw)).
  clear Hap.
  set (c := mkScalar (S (S n)) out
              (Some (mkHistory (Some cls) (Some ctx1) [AVar x])) None).
  set (st3 := set_requires_grad (S (S n)) true (allocate st2)).
  assert (Hr3 : requires_grad st3 x = true).
  { unfold st3. change (S (S n)) with (S (variable_count st2)).
    rewrite requires_grad_after_apply; [done | simpl; lia]. }
  rewrite (bind_ok _ _ _ _ _
             (backward_unary_leaf c x cls ctx1 d_output g st3
                eq_refl eq_refl ltac:(simpl; lia) Hbw Hr3)).
  exists x, c. eexists. split; [reflexivity|].
  split; [done|]. split; [done|].
  rewrite derivative_set_derivative. by rewrite decide_True.
Qed.

(** X14: The unary operators: on a leaf [x] that requests gradients, [c = -x],
    [x.relu()], [x.log()], [x.exp()] and [x.sigmoid()] have as data the
    kernel of the class at [x.data], and [c.backward(d)] gives [x] the
    derivative that the backward kernel of the class computes from [d] and
    from [x.data], the value that the forward function saved ([Neg] saves
    nothing and needs nothing). *)
Theorem unary_operator_gradients (math_log math_exp : float -> float)
    (v : float) (d_output : option float) (st : Store) :
  let d := default 1%float d_output in
  (∃ x c st',
      unary_backward Scalar__neg__ v d_output st = (Ok (x, c), st')
      ∧ data x = v ∧ data c = operators.neg v
      ∧ derivative st' x = Some (operators.neg_back d))
  ∧ (∃ x c st',
      unary_backward Scalar_relu v d_output st = (Ok (x, c), st')
      ∧ data x = v ∧ data c = operators.relu v
      ∧ derivative st' x = Some (operators.relu_back v d))
  ∧ (∃ x c st',
      unary_backward (Scalar_log math_log) v d_output st = (Ok (x, c), st')
      ∧ data x = v ∧ data c = operators.log math_log v
      ∧ derivative st' x = Some (operators.log_back v d))
  ∧ (∃ x c st',
      unary_backward (Scalar_exp math_exp) v d_output st = (Ok (x, c), st')
      ∧ data x = v ∧ data c = operators.exp math_exp v
      ∧ derivative st' x = Some (operators.exp_back math_exp v d))
  ∧ (∃ x c st',
      unary_backward (Scalar_sigmoid math_exp) v d_output st = (Ok (x, c), st')
      ∧ data x = v ∧ data c = operators.sigmoid math_exp v
      ∧ derivative st' x = Some (operators.sigmoid_back math_exp v d)).
Proof.
  intros d. split; [|split; [|split; [|split]]].
  - by apply (unary_backward_one_application Scalar__neg__ Neg.cls v
                (operators.neg v) (operators.neg_back d)
                (mkContext false None)).
  - by apply (unary_backward_one_application Scalar_relu ReLU.cls v
                (operators.relu v) (operators.relu_back v d)
                (mkContext false (Some [v]))).
  - by apply (unary_backward_one_application (Scalar_log math_log)
                (Log.cls math_log) v (operators.log math_log v)
                (operators.log_back v d) (mkContext false (Some [v]))).
  - by apply (unary_backward_one_application (Scalar_exp math_exp)
                (Exp.cls math_exp) v (operators.exp math_exp v)
                (operators.exp_back math_exp v d)
                (mkContext false (Some [v]))).
  - by apply (unary_backward_one_application (Scalar_sigmoid math_exp)
                (Sigmoid.cls math_exp) v (operators.sigmoid math_exp v)
                (operators.sigmoid_back math_exp v d)
                (mkContext false (Some [v]))).
Qed.

(** ** What the operators leave alone *)

Lemma apply_store_frame (b : bool) (st : Store) (z : Scalar) :
  unique_id z ≤ variable_count st →
  derivative
    (if b then set_requires_grad (S (variable_count st)) true (allocate st)
     else allocate st) z = derivative st z
  ∧ requires_grad
      (if b then set_requires_grad (S (variable_count st)) true (allocate st)
       else allocate st) z = requires_grad st z.
Proof.
  intros Hz. split.
  - unfold derivative. destruct b; simpl; apply lookup_delete_ne; lia.
  - destruct b.
    + apply requires_grad_after_apply. lia.
    + rewrite requires_grad_allocate.
      by rewrite (bool_decide_eq_false_2 (_ = _)) by lia.
Qed.

Lemma apply_store_count (b : bool) (st : Store) :
  variable_count
    (if b then set_requires_grad (S (variable_count st)) true (allocate st)
     else allocate st) = S (variable_count st)
  ∧ stdout
      (if b then set_requires_grad (S (variable_count st)) true (allocate st)
       else allocate st) = stdout st.
Proof. by destruct b. Qed.

(** X15: Every binary operator of [Scalar] returns a new scalar, whose identity
    is larger than the counter was and is the counter afterwards; it
    prints nothing and leaves the derivative and the [requires_grad] flag
    of every scalar made before as they were. *)
Theorem binary_operators_return_fresh_and_touch_nothing :
  Forall (fun op : Scalar -> Arg Scalar -> M Scalar =>
            ∀ (x : Scalar) (y : Arg Scalar) (st : Store),
              ∃ r st',
                op x y st = (Ok r, st')
                ∧ variable_count st < unique_id r
                ∧ unique_id r = variable_count st'
                ∧ stdout st' = stdout st
                ∧ ∀ z, unique_id z ≤ variable_count st →
                       derivative st' z = derivative st z
                       ∧ requires_grad st' z = requires_grad st z)
    binary_operators.
Proof.
  assert (Hone : ∀ (m : M Scalar) (st : Store) (d : float)
                   (h : option (History Scalar)) (b : bool) (st' : Store),
            m st = (Ok (mkScalar (S (variable_count st)) d h None), st') →
            st' = (if b
                   then set_requires_grad (S (variable_count st)) true
                          (allocate st)
                   else allocate st) →
            ∃ r st'',
              m st = (Ok r, st'')
              ∧ variable_count st < unique_id r
              ∧ unique_id r = variable_count st''
              ∧ stdout st'' = stdout st
              ∧ ∀ z, unique_id z ≤ variable_count st →
                     derivative st'' z = derivative st z
                     ∧ requires_grad st'' z = requires_grad st z).
  { intros m st d h b st' Hm ->. eexists _, _. split; [exact Hm|].
    destruct (apply_store_count b st) as [Hn Ho].
    simpl. rewrite Hn, Ho. split; [lia|]. split; [done|]. split; [done|].
    intros z Hz. by apply apply_store_frame. }
  assert (Htwo : ∀ (m1 : M Scalar) (m2 : Scalar → M Scalar) (st : Store)
                   (d1 d2 : float) (h1 h2 : option (History Scalar))
                   (b1 b2 : bool) (st1 st2 : Store),
            m1 st = (Ok (mkScalar (S (variable_count st)) d1 h1 None), st1) →
            st1 = (if b1
                   then set_requires_grad (S (variable_count st)) true
                          (allocate st)
                   else allocate st) →
            m2 (mkScalar (S (variable_count st)) d1 h1 None) st1 =
              (Ok (mkScalar (S (variable_count st1)) d2 h2 None), st2) →
            st2 = (if b2
                   then set_requires_grad (S (variable_count st1)) true
                          (allocate st1)
                   else allocate st1) →
            ∃ r st'',
              (m1 ≫= m2) st = (Ok r, st'')
              ∧ variable_count st < unique_id r
              ∧ unique_id r = variable_count st''
              ∧ stdout st'' = stdout st
              ∧ ∀ z, unique_id z ≤ variable_count st →
                     derivative st'' z = derivative st z
                     ∧ requires_grad st'' z = requires_grad st z).
  { intros m1 m2 st d1 d2 h1 h2 b1 b2 st1 st2 Hm1 Hst1 Hm2 Hst2.
    eexists _, _. split; [by rewrite (bind_ok _ _ _ _ _ Hm1)|].
    destruct (apply_store_count b1 st) as [Hn1 Ho1]. rewrite <- Hst1 in Hn1, Ho1.
    destruct (apply_store_count b2 st1) as [Hn2 Ho2].
    rewrite <- Hst2 in Hn2, Ho2.
    simpl. rewrite Hn2, Ho2, Hn1, Ho1.
    split; [lia|]. split; [done|]. split; [done|].
    intros z Hz.
    destruct (apply_store_frame b1 st z Hz) as [Hd1 Hr1].
    rewrite <- Hst1 in Hd1, Hr1.
    destruct (apply_store_frame b2 st1 z) as [Hd2 Hr2]; [lia|].
    rewrite <- Hst2 in Hd2, Hr2.
    by rewrite Hd2, Hr2, Hd1, Hr1. }
  unfold binary_operators. repeat constructor; intros x y st.
  - destruct (Mul_apply_ok (AVar x) y st) as (st' & H & Hst).
    exact (Hone _ _ _ _ _ _ H Hst).
  - destruct (Inv_apply_ok y st) as (st1 & H1 & Hst1).
    match type of H1 with
    | _ = (Ok ?i, _) =>
        destruct (Mul_apply_ok (AVar x) (AVar i) st1) as (st2 & H2 & Hst2)
    end.
    exact (Htwo _ (fun i => Mul.apply [AVar x; AVar i]) _ _ _ _ _ _ _ _ _
             H1 Hst1 H2 Hst2).
  - destruct (Inv_apply_ok (AVar x) st) as (st1 & H1 & Hst1).
    match type of H1 with
    | _ = (Ok ?i, _) =>
        destruct (Mul_apply_ok y (AVar i) st1) as (st2 & H2 & Hst2)
    end.
    exact (Htwo _ (fun i => Mul.apply [y; AVar i]) _ _ _ _ _ _ _ _ _
             H1 Hst1 H2 Hst2).
  - destruct (Add_apply_ok (AVar x) y st) as (st' & H & Hst).
    exact (Hone _ _ _ _ _ _ H Hst).
  - destruct (LT_apply_ok (AVar x) y st) as (st' & H & Hst).
    exact (Hone _ _ _ _ _ _ H Hst).
  - destruct (LT_apply_ok y (AVar x) st) as (st' & H & Hst).
    exact (Hone _ _ _ _ _ _ H Hst).
  - destruct (EQ_apply_ok (AVar x) y st) as (st' & H & Hst).
    exact (Hone _ _ _ _ _ _ H Hst).
  - destruct (Neg_apply_ok y st) as (st1 & H1 & Hst1).
    match type of H1 with
    | _ = (Ok ?i, _) =>
        destruct (Add_apply_ok (AVar x) (AVar i) st1) as (st2 & H2 & Hst2)
    end.
    exact (Htwo _ (fun i => Add.apply [AVar x; AVar i]) _ _ _ _ _ _ _ _ _
             H1 Hst1 H2 Hst2).
Qed.

(** ** [derivative_check] and an input without derivative *)

Lemma shifted_vals_length {V} (op : V -> float -> M V) (arg : Z)
    (epsilon : float) (vals : list V) (i : nat) (st st' : Store) (r : list V) :
  shifted_vals op arg epsilon i vals st = (Ok r, st') →
  length r = length vals.
Proof.
  revert i st st' r. induction vals as [|v vals IH]; intros i st st' r.
  - by intros [= <- _].
  - simpl. unfold mbind, M_bind, bind, mret, M_ret, ret.
    destruct (if (Z.of_nat i =? arg)%Z then op v epsilon else _) as [[x|e] s1];
      [|done].
    destruct (shifted_vals op arg epsilon (S i) vals s1) as [[xs|e] s2] eqn:Hxs;
      [|done].
    intros [= <- _]. simpl. f_equal. by apply (IH _ _ _ _ Hxs).
Qed.

(** On scalars, what [central_difference] raises was raised by [f] on as
    many values as it was given. *)
Lemma central_difference_raise_length (f : list Scalar -> M Scalar)
    (vals : list Scalar) (arg : option Z) (epsilon : option float)
    (st st' : Store) (e : exception) :
  central_difference f vals arg epsilon st = (Raise e, st') →
  ∃ l s, length l = length vals ∧ (f l s).1 = Raise e.
Proof.
  unfold central_difference.
  destruct (shifted_vals_returns sub_float (default default_arg arg)
              (default default_epsilon epsilon) vals 0 st)
    as (minus & s1 & Hminus).
  { intros x eps s. apply Scalar_sub_returns. }
  rewrite (bind_ok _ _ _ _ _ Hminus).
  destruct (shifted_vals_returns add_float (default default_arg arg)
              (default default_epsilon epsilon) vals 0 s1)
    as (plus & s2 & Hplus).
  { intros x eps s. apply Scalar_add_returns. }
  rewrite (bind_ok _ _ _ _ _ Hplus).
  apply shifted_vals_length in Hminus, Hplus.
  destruct (f plus s2) as [[fp|e1] s3] eqn:Hfp.
  - rewrite (bind_ok _ _ _ _ _ Hfp).
    destruct (f minus s3) as [[fm|e2] s4] eqn:Hfm.
    + rewrite (bind_ok _ _ _ _ _ Hfm).
      destruct (Scalar_sub_returns fp (AVar fm) s4) as (diff & s5 & Hdiff).
      change (sub fp fm) with (Scalar__sub__ fp (AVar fm)).
      rewrite (bind_ok _ _ _ _ _ Hdiff).
      destruct (Scalar_truediv_returns diff
                  (ARaw (2 * default default_epsilon epsilon)%float) s5)
        as (r & s6 & Hr).
      change (truediv_float diff ?c) with (Scalar__truediv__ diff (ARaw c)).
      rewrite Hr. discriminate.
    + rewrite (bind_raise _ _ _ _ _ Hfm). intros [= -> ->].
      exists minus, s3. by rewrite Hfm.
  - rewrite (bind_raise _ _ _ _ _ Hfp). intros [= -> ->].
    exists plus, s2. by rewrite Hfp.
Qed.

(** X16: When the flags are set, [f] has returned [out] and [out.backward()]
    has returned, and [f] raises no type error on as many scalars as there
    are inputs: [derivative_check] raises a type error exactly when it
    reaches, after the earlier inputs passed, an input whose derivative
    attribute holds no value once its estimate is computed: the message
    cannot be formatted.  (A value left there by an earlier backward pass
    counts as a value.) *)
Theorem derivative_check_unset_derivative
    (allclose : float -> float -> float -> float -> bool)
    (f : list Scalar -> M Scalar) (scalars : list Scalar)
    (st st0 st1 st2 : Store) (out : Scalar) :
  (∀ l s, length l = length scalars → (f l s).1 ≠ Raise TypeError) →
  for_each (fun x => requires_grad_ x true) scalars st = (Ok tt, st0) →
  f scalars st0 = (Ok out, st1) →
  Variable_backward out None st1 = (Ok tt, st2) →
  (derivative_check allclose f scalars st).1 = Raise TypeError ↔
  ∃ i x s check s',
    scalars !! i = Some x
    ∧ for_each (check_argument allclose f scalars scalars)
        (take i (enumerate scalars)) st2 = (Ok tt, s)
    ∧ central_difference f scalars (Some (Z.of_nat i)) None s = (Ok check, s')
    ∧ derivative s' x = None.
Proof.
  intros Hf Hflags Hout Hback.
  assert (Hrun : derivative_check allclose f scalars st =
            for_each (check_argument allclose f scalars scalars)
              (enumerate scalars) st2).
  { unfold derivative_check. rewrite (bind_ok _ _ _ _ _ Hflags).
    rewrite (bind_ok _ _ _ _ _ Hout). by rewrite (bind_ok _ _ _ _ _ Hback). }
  rewrite Hrun, for_each_raise_iff. split.
  - intros (k & [i x] & s & Hk & Hpre & Hbody).
    apply enumerate_lookup in Hk as [-> Hk].
    destruct (central_difference f scalars (Some (Z.of_nat k)) None s)
      as [[check|e] s'] eqn:Hc.
    + rewrite (check_argument_ok allclose f scalars k x check s s' Hc) in Hbody.
      destruct (derivative s' x) as [d|] eqn:Hd.
      * by destruct (allclose d (data check) 1e-2%float 1e-2%float).
      * by exists k, x, s, check, s'.
    + rewrite (check_argument_raise allclose f scalars k x s s' e Hc) in Hbody.
      simpl in Hbody. injection Hbody as ->.
      apply central_difference_raise_length in Hc as (l & s0 & Hl & Hfl).
      by destruct (Hf l s0 Hl).
  - intros (i & x & s & check & s' & Hi & Hpre & Hc & Hd).
    exists i, (i, x), s. split; [by apply enumerate_lookup|].
    split; [done|].
    by rewrite (check_argument_ok allclose f scalars i x check s s' Hc), Hd.
Qed.

Lemma square_of_second_raises_no_type_error (l : list Scalar) (s : Store) :
  length l = length [x_two; y_three] →
  (square_of_second l s).1 ≠ Raise TypeError.
Proof.
  destruct l as [|x [|y [|z l]]]; try discriminate. intros _.
  unfold square_of_second, Scalar__mul__.
  destruct (Mul_apply_ok (AVar y) (AVar y) s) as (s' & H & _).
  by rewrite H.
Qed.

Lemma derivative_check_unset_derivative_witness :
  ∃ st2 i x s check s',
    [x_two; y_three] !! i = Some x
    ∧ for_each (check_argument tolerance_test square_of_second
                  [x_two; y_three] [x_two; y_three])
        (take i (enumerate [x_two; y_three])) st2 = (Ok tt, s)
    ∧ central_difference square_of_second [x_two; y_three]
        (Some (Z.of_nat i)) None s = (Ok check, s')
    ∧ derivative s' x = None.
Proof.
  eexists.
  apply (proj1 (derivative_check_unset_derivative tolerance_test
                  square_of_second [x_two; y_three] st_two _ _ _ _
                  square_of_second_raises_no_type_error
                  eq_refl eq_refl eq_refl)).
  vm_compute. reflexivity.
Defined.

(** ** [derivative_check]: assertion error or return *)

Section DerivativeCheckOutcome.
Variable allclose : float -> float -> float -> float -> bool.
Variable f : list Scalar -> M Scalar.
Variable scalars : list Scalar.

(** [f] itself raises no assertion error. *)
Hypothesis f_raises_no_assertion :
  ∀ l s, (f l s).1 ≠ Raise AssertionError.

(** X17: [derivative_check] on an [f] that raises no assertion error of its
    own: it sets [requires_grad] on every input, evaluates [out], the
    value of [f] on the scalars, and runs [out.backward()] (what either
    raises, the check raises).  When these return, it raises an assertion
    error exactly when, at some input reached after the earlier ones
    passed, the derivative attribute holds a value and the comparison of
    numpy (relative and absolute tolerance 1e-2) rejects that value
    against the central-difference estimate; and it returns exactly when
    at every input the attribute holds a value that is accepted.  (The
    value is the one found in the store at that point, whichever backward
    pass left it there.) *)
Theorem derivative_check_outcome (st : Store) :
  ∃ st0,
    for_each (fun x => requires_grad_ x true) scalars st = (Ok tt, st0)
    ∧ (∀ x, x ∈ scalars → requires_grad st0 x = true)
    ∧ (∀ e st1,
         f scalars st0 = (Raise e, st1) →
         derivative_check allclose f scalars st = (Raise e, st1))
    ∧ (∀ out st1 e st2,
         f scalars st0 = (Ok out, st1) →
         Variable_backward out None st1 = (Raise e, st2) →
         derivative_check allclose f scalars st = (Raise e, st2))
    ∧ ∀ out st1 st2,
        f scalars st0 = (Ok out, st1) →
        Variable_backward out None st1 = (Ok tt, st2) →
        ((derivative_check allclose f scalars st).1 = Raise AssertionError ↔
           ∃ i x s check s' d,
             scalars !! i = Some x
             ∧ for_each (check_argument allclose f scalars scalars)
                 (take i (enumerate scalars)) st2 = (Ok tt, s)
             ∧ central_difference f scalars (Some (Z.of_nat i)) None s
               = (Ok check, s')
             ∧ derivative s' x = Some d
             ∧ allclose d (data check) 1e-2 1e-2 = false)
        ∧ ((derivative_check allclose f scalars st).1 = Ok tt ↔
           ∀ i x s,
             scalars !! i = Some x →
             for_each (check_argument allclose f scalars scalars)
               (take i (enumerate scalars)) st2 = (Ok tt, s) →
             ∃ check s' d,
               central_difference f scalars (Some (Z.of_nat i)) None s
               = (Ok check, s')
               ∧ derivative s' x = Some d
               ∧ allclose d (data check) 1e-2 1e-2 = true).
Proof.
  destruct (for_each_requires_grad scalars st) as (st0 & Hflags & Hrg & _).
  exists st0. split; [exact Hflags|]. split.
  { intros x Hx. rewrite Hrg.
    rewrite (bool_decide_eq_true_2 (_ ∈ _)); [by rewrite orb_true_r|].
    by apply list_elem_of_fmap_2. }
  split.
  { intros e st1 Hout. unfold derivative_check.
    rewrite (bind_ok _ _ _ _ _ Hflags). by rewrite (bind_raise _ _ _ _ _ Hout). }
  split.
  { intros out st1 e st2 Hout Hback. unfold derivative_check.
    rewrite (bind_ok _ _ _ _ _ Hflags). rewrite (bind_ok _ _ _ _ _ Hout).
    by rewrite (bind_raise _ _ _ _ _ Hback). }
  intros out st1 st2 Hout Hback.
  assert (Hrun : derivative_check allclose f scalars st =
            for_each (check_argument allclose f scalars scalars)
              (enumerate scalars) st2).
  { unfold derivative_check. rewrite (bind_ok _ _ _ _ _ Hflags).
    rewrite (bind_ok _ _ _ _ _ Hout). by rewrite (bind_ok _ _ _ _ _ Hback). }
  rewrite Hrun. split.
  - rewrite for_each_raise_iff. split.
    + intros (k & [i x] & s & Hk & Hpre & Hbody).
      apply enumerate_lookup in Hk as [-> Hk].
      destruct (central_difference f scalars (Some (Z.of_nat k)) None s)
        as [[check|e] s'] eqn:Hc.
      * rewrite (check_argument_ok allclose f scalars k x check s s' Hc) in Hbody.
        destruct (derivative s' x) as [d|] eqn:Hd; [|done].
        destruct (allclose d (data check) 1e-2 1e-2) eqn:Hclose; [done|].
        by exists k, x, s, check, s', d.
      * rewrite (check_argument_raise allclose f scalars k x s s' e Hc) in Hbody.
        simpl in Hbody. injection Hbody as ->.
        apply central_difference_raise in Hc as (l & s0 & Hf).
        by destruct (f_raises_no_assertion l s0).
    + intros (i & x & s & check & s' & d & Hi & Hpre & Hc & Hd & Hclose).
      exists i, (i, x), s. split; [by apply enumerate_lookup|].
      split; [done|].
      by rewrite (check_argument_ok allclose f scalars i x check s s' Hc), Hd, Hclose.
  - rewrite for_each_ok_iff. split.
    + intros H i x s Hi Hpre.
      specialize (H i (i, x) s (proj2 (enumerate_lookup scalars i i x)
                                  (conj eq_refl Hi)) Hpre).
      destruct (central_difference f scalars (Some (Z.of_nat i)) None s)
        as [[check|e] s'] eqn:Hc.
      * rewrite (check_argument_ok allclose f scalars i x check s s' Hc) in H.
        destruct (derivative s' x) as [d|] eqn:Hd; [|done].
        destruct (allclose d (data check) 1e-2 1e-2) eqn:Hclose; [|done].
        by exists check, s', d.
      * by rewrite (check_argument_raise allclose f scalars i x s s' e Hc)
          in H.
    + intros H k [i x] s Hk Hpre.
      apply enumerate_lookup in Hk as [-> Hk].
      destruct (H k x s Hk Hpre) as (check & s' & d & Hc & Hd & Hclose).
      by rewrite (check_argument_ok allclose f scalars k x check s s' Hc),
        Hd, Hclose.
Qed.

End DerivativeCheckOutcome.

Lemma below_two_raises_no_assertion (l : list Scalar) (s : Store) :
  (below_two l s).1 ≠ Raise AssertionError.
Proof.
  destruct l as [|x [|y l]]; try discriminate.
  unfold below_two, Scalar__lt__.
  destruct (LT_apply_ok (AVar x) (ARaw 2) s) as (s' & H & _).
  by rewrite H.
Qed.

(** The theorem at [x < 2.0] and [Scalar(2.0)]: the assertion error that
    the check raises there comes with an input whose derivative the
    comparison rejects. *)
Lemma derivative_check_outcome_witness :
  ∃ st2 i x s check s' d,
    [x_two] !! i = Some x
    ∧ for_each (check_argument tolerance_test below_two [x_two] [x_two])
        (take i (enumerate [x_two])) st2 = (Ok tt, s)
    ∧ central_difference below_two [x_two] (Some (Z.of_nat i)) None s
      = (Ok check, s')
    ∧ derivative s' x = Some d
    ∧ tolerance_test d (data check) 1e-2 1e-2 = false.
Proof.
  destruct (derivative_check_outcome tolerance_test below_two [x_two]
              below_two_raises_no_assertion st_one)
    as (st0 & Hfl & _ & _ & _ & H).
  vm_compute in Hfl. injection Hfl as <-.
  edestruct H as [Hassert _];
    [vm_compute; reflexivity | vm_compute; reflexivity |].
  eexists. apply Hassert. vm_compute. reflexivity.
Defined.

(** The attribute is read as it stands: for [f(x, y) = y * y], an [x] that
    kept the derivative 1.0 of an earlier backward pass of its own is
    compared, and rejected against the estimate 0.0; no type error is
    raised. *)
Example derivative_check_earlier_derivative :
  (check_after_backward tolerance_test square_of_second 2 3 Store_init).1
  = Raise AssertionError.
Proof. vm_compute. reflexivity. Qed.
